(** * FlowchartApp: the sanitizer, the conversation history and the zoom
    scale of [src/FlowchartApp.tsx], embedded as Rocq functions.

    JavaScript strings are sequences of UTF-16 code units; they are modelled
    as lists of [N].  The regular expressions of [handleGenerate] are
    translated one by one into matchers on such lists.  The component state
    ([useState] cells) is a record, the asynchronous handler is split at its
    [await] into the part that runs on the click and the part that runs when
    the [fetch] settles. *)

From Stdlib Require Import List NArith ZArith Bool Ascii String Lia.
From Stdlib Require Import Floats.SpecFloat.
Import ListNotations.

Local Open Scope string_scope.
Local Open Scope list_scope.

(** ** JavaScript strings *)

Module JS.

Definition char := N.
Definition str := list char.

(** An ASCII literal of the source as a list of code units. *)
Definition lit (s : string) : str := map N_of_ascii (list_ascii_of_string s).

Definition LF : char := 10%N.
Definition BACKTICK : char := 96%N.

(** The source writes line breaks as the escape [\n]; [lines] joins literal
    lines with U+000A. *)
Fixpoint lines (l : list string) : str :=
  match l with
  | [] => []
  | [s] => lit s
  | s :: rest => lit s ++ LF :: lines rest
  end.

(** [if (s)] on a string: the empty string is the only falsy one. *)
Definition truthy (s : str) : bool :=
  match s with [] => false | _ :: _ => true end.

(** WhiteSpace and LineTerminator code points of ECMAScript, the set that
    [String.prototype.trim] removes and the class [\s] matches. *)
Definition isWhiteSpace (c : char) : bool :=
  ((c =? 9) || (c =? 10) || (c =? 11) || (c =? 12) || (c =? 13) || (c =? 32)
   || (c =? 160) || (c =? 5760) || ((8192 <=? c) && (c <=? 8202))
   || (c =? 8232) || (c =? 8233) || (c =? 8239) || (c =? 8287)
   || (c =? 12288) || (c =? 65279))%N.

Fixpoint trimStart (s : str) : str :=
  match s with
  | [] => []
  | c :: s' => if isWhiteSpace c then trimStart s' else s
  end.

Fixpoint trimEnd (s : str) : str :=
  match s with
  | [] => []
  | c :: s' =>
      match trimEnd s' with
      | [] => if isWhiteSpace c then [] else [c]
      | t => c :: t
      end
  end.

(** [s.trim()] *)
Definition trim (s : str) : str := trimEnd (trimStart s).

(** [s.startsWith(p)] *)
Fixpoint startsWith (s p : str) {struct p} : bool :=
  match p with
  | [] => true
  | x :: p' =>
      match s with
      | [] => false
      | y :: s' => (x =? y)%N && startsWith s' p'
      end
  end.

(** [s === t] *)
Fixpoint eqb (s t : str) : bool :=
  match s, t with
  | [], [] => true
  | x :: s', y :: t' => (x =? y)%N && eqb s' t'
  | _, _ => false
  end.

(** [s.includes(p)] *)
Fixpoint includes (s p : str) : bool :=
  startsWith s p ||
  match s with
  | [] => false
  | _ :: s' => includes s' p
  end.

(** Matching of one pattern character under the flag [i] (without [u]).
    Canonicalize maps a code unit to its upper case, except that a code unit
    of value 128 or more is never mapped below 128; so an ASCII letter of the
    pattern matches exactly its two ASCII cases, and another ASCII character
    matches itself only. *)
Definition isLower (c : char) : bool := ((97 <=? c) && (c <=? 122))%N.

Definition canonicalizeAscii (c : char) : char :=
  if isLower c then (c - 32)%N else c.

Definition eqIgnoreCase (p c : char) : bool :=
  ((c <? 128) && (canonicalizeAscii c =? canonicalizeAscii p))%N.

Fixpoint startsWithIgnoreCase (s p : str) {struct p} : bool :=
  match p with
  | [] => true
  | x :: p' =>
      match s with
      | [] => false
      | y :: s' => eqIgnoreCase x y && startsWithIgnoreCase s' p'
      end
  end.

(** [s.replace(re, by)] for a regular expression [re] with the flag [g] and
    no anchor, and a replacement [by] without [$] patterns.  [m t] is the
    length of the match of [re] at the start of [t], when there is one.  The
    scan goes left to right; after a match it resumes behind the matched
    text, which [skip] counts down. *)
Fixpoint replaceAllFrom (m : str -> option nat) (by_ : str) (skip : nat)
    (s : str) : str :=
  match s with
  | [] => []
  | c :: s' =>
      match skip with
      | S k => replaceAllFrom m by_ k s'
      | O =>
          match m s with
          | Some (S n) => by_ ++ replaceAllFrom m by_ n s'
          | _ => c :: replaceAllFrom m by_ 0 s'
          end
      end
  end.

Definition replaceAll (m : str -> option nat) (by_ : str) (s : str) : str :=
  replaceAllFrom m by_ 0 s.

End JS.

Import JS.

(** ** The code sanitizer (the body of [handleGenerate] between the parsed
    response and [setMessages]) *)

Module Sanitizer.

Definition fence : str := lit "```".
Definition fence_mermaid : str := lit "```mermaid".
Definition header : str := lit "flowchart TD".
Definition header_nl : str := header ++ [LF].

(** [/```mermaid\n?/]: the literal, then greedily one optional line feed. *)
Definition match_fence_mermaid (t : str) : option nat :=
  if startsWith t fence_mermaid then
    Some (if startsWith (skipn 10 t) [LF] then 11 else 10)
  else None.

(** [/```/] *)
Definition match_fence (t : str) : option nat :=
  if startsWith t fence then Some 3 else None.

(** [.replace(/^graph /i, 'flowchart ')]: anchored, no flag [g], one
    replacement at most. *)
Definition replace_graph (s : str) : str :=
  if startsWithIgnoreCase s (lit "graph ") then lit "flowchart " ++ skipn 6 s
  else s.

(** [.replace(/^flowchart TD\s*/, '')] *)
Definition strip_header (s : str) : str :=
  if startsWith s header then trimStart (skipn 12 s) else s.

(** [.replace(/^(flowchart TD)([^\n])/, '$1\n$2')] *)
Definition newline_guard (s : str) : str :=
  if startsWith s header then
    match skipn 12 s with
    | c :: rest => if (c =? LF)%N then s else header ++ LF :: c :: rest
    | [] => s
    end
  else s.

(** The chain of replacements on the trimmed completion. *)
Definition clean (content : str) : str :=
  trim (replace_graph
          (replaceAll match_fence []
             (replaceAll match_fence_mermaid [] (trim content)))).

(** [if (!code.startsWith('flowchart TD\n')) { ... }] *)
Definition ensure_header (code : str) : str :=
  if negb (startsWith code header_nl) then header_nl ++ strip_header code
  else code.

Definition sanitize (content : str) : str :=
  newline_guard (ensure_header (clean content)).

(** The number of backticks that [s] begins with (used to state what the
    removal of the fences leaves). *)
Fixpoint leading_backticks (s : str) : nat :=
  match s with
  | [] => 0
  | c :: s' => if (BACKTICK =? c)%N then S (leading_backticks s') else 0
  end.

(** Canonical form: the header line, no fence, and no white space behind
    the body. *)
Definition canonical (s : str) : bool :=
  startsWith s header_nl && negb (includes s fence)
  && eqb (trimEnd (skipn 13 s)) (skipn 13 s).

End Sanitizer.

Import Sanitizer.

(** ** JavaScript numbers: IEEE 754 binary64, as the executable
    specification of the Standard Library gives it *)

Module Num.

Definition number := spec_float.

Definition prec : Z := 53.
Definition emax : Z := 1024.

Definition add : number -> number -> number := SFadd prec emax.
Definition neg : number -> number := SFopp.

Definition isNaN (x : number) : bool :=
  match x with S754_nan => true | _ => false end.
Definition isPosZero (x : number) : bool :=
  match x with S754_zero false => true | _ => false end.
Definition isNegZero (x : number) : bool :=
  match x with S754_zero true => true | _ => false end.

(** The literals [1], [2], [0.1] and [0.3]: the binary64 value nearest to
    each decimal. *)
Definition one : number := S754_finite false 4503599627370496 (-52).
Definition two : number := S754_finite false 4503599627370496 (-51).
Definition tenth : number := S754_finite false 7205759403792794 (-56).
Definition three_tenths : number := S754_finite false 5404319552844595 (-54).

(** [Math.min(...)]: NaN if an argument is NaN, otherwise the lowest, -0
    below +0. *)
Fixpoint Math_min_from (lowest : number) (args : list number) : number :=
  match args with
  | [] => lowest
  | n :: rest =>
      if isNaN n then S754_nan
      else
        let lowest := if isNegZero n && isPosZero lowest then n else lowest in
        Math_min_from (if SFltb n lowest then n else lowest) rest
  end.

Definition Math_min (args : list number) : number :=
  Math_min_from (S754_infinity false) args.

(** [Math.max(...)] *)
Fixpoint Math_max_from (highest : number) (args : list number) : number :=
  match args with
  | [] => highest
  | n :: rest =>
      if isNaN n then S754_nan
      else
        let highest := if isPosZero n && isNegZero highest then n else highest in
        Math_max_from (if SFltb highest n then n else highest) rest
  end.

Definition Math_max (args : list number) : number :=
  Math_max_from (S754_infinity true) args.

(** The interval of the view scale, [0.1 <= x && x <= 2]. *)
Definition in_range (x : number) : bool := SFleb tenth x && SFleb x two.

End Num.

Import Num.

(** ** The component *)

Module App.

Inductive Role := system | user | assistant.

Record Message := { role : Role; content : str }.

(** The [useState] cells of [FlowchartApp]. *)
Record State := {
  prompt : str;
  mermaidCode : str;
  loading : bool;
  error : option str;          (* [string | null] *)
  scale : number;
  messages : list Message
}.

Definition setPrompt (v : str) (s : State) : State :=
  {| prompt := v; mermaidCode := mermaidCode s; loading := loading s;
     error := error s; scale := scale s; messages := messages s |}.
Definition setMermaidCode (v : str) (s : State) : State :=
  {| prompt := prompt s; mermaidCode := v; loading := loading s;
     error := error s; scale := scale s; messages := messages s |}.
Definition setLoading (v : bool) (s : State) : State :=
  {| prompt := prompt s; mermaidCode := mermaidCode s; loading := v;
     error := error s; scale := scale s; messages := messages s |}.
Definition setError (v : option str) (s : State) : State :=
  {| prompt := prompt s; mermaidCode := mermaidCode s; loading := loading s;
     error := v; scale := scale s; messages := messages s |}.
Definition setScale (f : number -> number) (s : State) : State :=
  {| prompt := prompt s; mermaidCode := mermaidCode s; loading := loading s;
     error := error s; scale := f (scale s); messages := messages s |}.
Definition setMessages (v : list Message) (s : State) : State :=
  {| prompt := prompt s; mermaidCode := mermaidCode s; loading := loading s;
     error := error s; scale := scale s; messages := v |}.

Definition system_message : Message :=
  {| role := system;
     content := lines [
       "You are a Mermaid.js flowchart generator. Generate only valid Mermaid.js flowchart code. Always start with 'flowchart TD'. Use proper syntax: nodes with square brackets [Node text], arrows with -->, and no extra text or formatting. If this is a follow-up request, modify the existing flowchart based on the user's request. Example format:";
       "flowchart TD";
       "A[Start] --> B[Process]";
       "B --> C[End]" ] |}.

Definition initial : State :=
  {| prompt := []; mermaidCode := []; loading := false; error := None;
     scale := one; messages := [system_message] |}.

(** *** What the environment answers *)

(** A thrown value: an [Error] with its [message], or anything else. *)
Inductive Thrown := ErrorObject (message : str) | OtherValue.

Definition Result (A : Type) : Type := Thrown + A.
Definition ret {A} (a : A) : Result A := inr a.
Definition throw {A} (e : Thrown) : Result A := inl e.
Definition bind {A B} (r : Result A) (k : A -> Result B) : Result B :=
  match r with inl e => inl e | inr a => k a end.

Notation "x <- r ;; k" := (bind r (fun x => k))
  (at level 61, r at next level, right associativity).

(** The response of the completion endpoint: [json] is the text read at
    [data.choices[0].message.content], or what [response.json()] or that
    access throws. *)
Record Response := { ok : bool; statusText : str; json : Result str }.

(** The body of the request. *)
Record Request := {
  model : str;
  req_messages : list Message;
  temperature : number;
  max_tokens : Z;
  stream : bool
}.

Definition request_body (updatedMessages : list Message) : Request :=
  {| model := lit "llama-3.3-70b-versatile";
     req_messages := updatedMessages;
     temperature := three_tenths;
     max_tokens := 500;
     stream := false |}.

(** *** [handleGenerate] *)

Definition context_note (code : str) : str :=
  lit "Current flowchart code:" ++ LF :: code
  ++ LF :: lit "Please modify this based on the user's request.".

(** [updatedMessages], after the conditional [push]. *)
Definition updatedMessages (s : State) : list Message :=
  let updated := messages s ++ [{| role := user; content := prompt s |}] in
  if truthy (mermaidCode s) then
    updated ++ [{| role := assistant; content := context_note (mermaidCode s) |}]
  else updated.

(** Up to the [await]: [None] is the early [return]; otherwise the state
    after [setLoading(true)] and [setError(null)], and the array that the
    suspended handler holds and the request carries. *)
Definition handleGenerate_start (s : State) : option (State * list Message) :=
  if negb (truthy (trim (prompt s))) then None
  else Some (setError None (setLoading true s), updatedMessages s).

(** The [try] block from the settled [fetch] on. *)
Definition try_block (fetched : Result Response) : Result str :=
  response <- fetched ;;
  _ <- (if negb (ok response)
        then throw (ErrorObject (lit "API error: " ++ statusText response))
        else ret tt) ;;
  content <- json response ;;
  ret (sanitize content).

Definition error_text (e : Thrown) : str :=
  match e with
  | ErrorObject message => message
  | OtherValue => lit "Unknown error"
  end.

(** From the [await] on, on the state the component has by then: the rest of
    [try], or [catch], then [finally]. *)
Definition handleGenerate_settle (updated : list Message)
    (fetched : Result Response) (s : State) : State :=
  let s' :=
    match try_block fetched with
    | inr code =>
        setPrompt []
          (setMermaidCode code
             (setMessages
                (updated ++ [{| role := assistant; content := code |}]) s))
    | inl err => setError (Some (error_text err)) s
    end in
  setLoading false s'.

(** *** [handleZoom] *)

Definition handleZoom (delta : number) (s : State) : State :=
  setScale (fun prevScale => Math_max [tenth; Math_min [two; add prevScale delta]]) s.

(** *** The rendered controls and the events *)

(** [disabled={loading || !prompt.trim()}] of the submit button. *)
Definition submit_disabled (s : State) : bool :=
  loading s || negb (truthy (trim (prompt s))).

(** A click on the submit button, rendered from the current state: a
    disabled button dispatches nothing. *)
Definition click_submit (s : State) : option (State * list Message) :=
  if submit_disabled s then None else handleGenerate_start s.

(** The component with the handler that is suspended at its [await], if
    one is: the handler holds its [updatedMessages].  The button is disabled
    while [loading], so a second handler never starts before the first has
    settled. *)
Record Component := { view : State; suspended : option (list Message) }.

Inductive Event :=
  | Typed (text : str)                    (* [onChange] of the textarea *)
  | ClickSubmit
  | FetchSettled (fetched : Result Response)
  | ClickZoomOut                          (* [handleZoom(-0.1)] *)
  | ClickZoomIn                           (* [handleZoom(0.1)] *)
  | RenderFailed.                         (* [catch] of [renderDiagram] *)

Definition render_error : str :=
  lit "Failed to render diagram. Please check the syntax.".

Definition step (c : Component) (e : Event) : Component :=
  match e with
  | Typed text => {| view := setPrompt text (view c); suspended := suspended c |}
  | ClickSubmit =>
      match click_submit (view c) with
      | Some (s, updated) => {| view := s; suspended := Some updated |}
      | None => c
      end
  | FetchSettled fetched =>
      match suspended c with
      | Some updated =>
          {| view := handleGenerate_settle updated fetched (view c);
             suspended := None |}
      | None => c
      end
  | ClickZoomOut =>
      {| view := handleZoom (neg tenth) (view c); suspended := suspended c |}
  | ClickZoomIn =>
      {| view := handleZoom tenth (view c); suspended := suspended c |}
  | RenderFailed =>
      if truthy (mermaidCode (view c)) then
        {| view := setError (Some render_error) (view c);
           suspended := suspended c |}
      else c
  end.

(** Whether a handler is suspended. *)
Definition in_flight (c : Component) : bool :=
  match suspended c with Some _ => true | None => false end.

Definition settles (e : Event) : bool :=
  match e with FetchSettled _ => true | _ => false end.

Definition start : Component := {| view := initial; suspended := None |}.

Definition run_from (c : Component) (events : list Event) : Component :=
  fold_left step events c.

Definition run (events : list Event) : Component := run_from start events.

(** The request that a click sends, if it sends one. *)
Definition sent_request (s : State) : option Request :=
  match click_submit s with
  | Some (_, updated) => Some (request_body updated)
  | None => None
  end.

(** One generation cycle with nothing in between: the click, then the
    settled [fetch]. *)
Definition generation_cycle (s : State) (fetched : Result Response) : State :=
  match click_submit s with
  | Some (s', updated) => handleGenerate_settle updated fetched s'
  | None => s
  end.

(** What the history satisfies while the component runs: the array of a
    suspended handler extends the stored messages, and the system message
    is the first of them. *)
Definition history_invariant (c : Component) : Prop :=
  (forall updated, suspended c = Some updated ->
     exists added, updated = messages (view c) ++ added)
  /\ hd_error (messages (view c)) = Some system_message.

(** Two answers of the endpoint: a completion, and a refusal with a status
    text. *)
Definition answered (text : str) : Result Response :=
  inr {| ok := true; statusText := lit "OK"; json := inr text |}.

Definition refused (status : str) : Result Response :=
  inr {| ok := false; statusText := status;
         json := inl (ErrorObject (lit "Unexpected token")) |}.

(** Two moments of a session: the first prompt typed, and the second prompt
    typed after a first diagram was generated. *)
Definition first_prompt : Component := run [Typed (lit "draw a loop")].

Definition second_prompt : Component :=
  run [Typed (lit "draw a loop"); ClickSubmit;
       FetchSettled (answered (lit "A-->A")); Typed (lit "add an exit")].

End App.

Import App.

(** ** What the component renders, and the shape of a session *)

Module View.

(** [placeholder] of the textarea. *)
Definition placeholder (s : State) : str :=
  if truthy (mermaidCode s)
  then lit "Describe how you want to modify the flowchart..."
  else lit "Describe your flowchart...".

(** The text of the submit button. *)
Definition button_label (s : State) : str :=
  if loading s then lit "Generating..."
  else if truthy (mermaidCode s) then lit "Update Diagram"
  else lit "Generate Diagram".

(** [{error && <p>{error}</p>}]: the paragraph is rendered for a string that
    is not empty. *)
Definition error_paragraph (s : State) : option str :=
  match error s with
  | Some text => if truthy text then Some text else None
  | None => None
  end.

Definition mul : number -> number -> number := SFmul prec emax.

(** The Number of an integer. *)
Definition of_Z (z : Z) : number := binary_normalize prec emax z 0 false.

Definition hundred : number := S754_finite false 7036874417766400 (-46).

(** [Math.round(x)]: [x] itself when it is not finite or is integral,
    otherwise the integer nearest to [x], the upper one on a tie; a result
    of zero keeps the sign of [x]. *)
Definition Math_round (x : number) : number :=
  match x with
  | S754_finite sx mx ex =>
      if (0 <=? ex)%Z then x
      else
        let n := cond_Zopp sx (Zpos mx) in
        let r := ((2 * n + 2 ^ (- ex)) / 2 ^ (1 - ex))%Z in
        if (r =? 0)%Z then S754_zero sx else of_Z r
  | _ => x
  end.

(** [{Math.round(scale * 100)}%], the number in front of the sign. *)
Definition zoom_readout (s : State) : number :=
  Math_round (mul (scale s) hundred).

(** The same Number, bit for bit. *)
Definition same_number (x y : number) : bool :=
  match x, y with
  | S754_zero a, S754_zero b => Bool.eqb a b
  | S754_infinity a, S754_infinity b => Bool.eqb a b
  | S754_nan, S754_nan => true
  | S754_finite a m e, S754_finite b n f =>
      Bool.eqb a b && (m =? n)%positive && (e =? f)%Z
  | _, _ => false
  end.

Definition zoomed (delta x : number) : number :=
  scale (handleZoom delta (setScale (fun _ => x) initial)).

Definition add_scale (x : number) (l : list number) : list number :=
  if existsb (same_number x) l then l else l ++ [x].

(** The scales one click further than those of [l], and those of [l]. *)
Definition one_more_click (l : list number) : list number :=
  fold_left (fun acc x => add_scale (zoomed (neg tenth) x)
                            (add_scale (zoomed tenth x) acc)) l l.

(** The scales that the zoom buttons reach from 1 within [n] clicks. *)
Fixpoint scales_within (n : nat) : list number :=
  match n with
  | O => [one]
  | S k => one_more_click (scales_within k)
  end.

(** Both buttons lead from a scale of [l] to a scale of [l]. *)
Definition closed_under_zoom (l : list number) : bool :=
  forallb (fun x => existsb (same_number (zoomed tenth x)) l
                    && existsb (same_number (zoomed (neg tenth) x)) l) l.

(** The readout is one of 10, 20, ..., 200. *)
Definition tens_readout (x : number) : bool :=
  existsb (fun k => same_number (Math_round (mul x hundred))
                      (of_Z (10 * Z.of_nat k)))
    (seq 1 20).

(** The roles of the stored messages: the system message alone, or the
    system message, the first exchange, and then per later exchange the user
    message, the note with the diagram and the reply. *)
Fixpoint later_exchanges (roles : list Role) : bool :=
  match roles with
  | [] => true
  | user :: assistant :: assistant :: rest => later_exchanges rest
  | _ => false
  end.

Definition session_roles (roles : list Role) : bool :=
  match roles with
  | [system] => true
  | system :: user :: assistant :: rest => later_exchanges rest
  | _ => false
  end.

(** What a session keeps: the shape of the history; no diagram and no
    exchange yet, or a canonical diagram that the last message carries; and
    the array of a suspended handler is the history with the user message
    and, with a diagram, the note. *)
Definition session_invariant (c : Component) : Prop :=
  session_roles (map role (messages (view c))) = true
  /\ ((mermaidCode (view c) = [] /\ messages (view c) = [system_message])
      \/ (canonical (mermaidCode (view c)) = true
          /\ exists earlier,
               messages (view c) =
               earlier ++ [{| role := assistant;
                              content := mermaidCode (view c) |}]))
  /\ (forall updated, suspended c = Some updated ->
       exists text,
         updated =
         messages (view c) ++ {| role := user; content := text |}
           :: (if truthy (mermaidCode (view c))
               then [{| role := assistant;
                        content := context_note (mermaidCode (view c)) |}]
               else [])).

End View.

Import View.

(** * Facts about strings *)

Section StringFacts.

Implicit Types (s t p a b : str) (c : char).

Lemma startsWith_app p t : startsWith (p ++ t) p = true.
Proof.
  induction p as [|x p IH]; simpl; [reflexivity|].
  now rewrite N.eqb_refl.
Qed.

Lemma startsWith_split s p :
  startsWith s p = true -> s = p ++ skipn (List.length p) s.
Proof.
  revert s; induction p as [|x p IH]; intros s H; simpl in *; [reflexivity|].
  destruct s as [|y s]; [discriminate|].
  apply andb_true_iff in H as [Hxy Hp].
  apply N.eqb_eq in Hxy; subst y.
  now rewrite <- (IH s Hp).
Qed.

Lemma startsWith_prefix_app s t p :
  startsWith s p = true -> startsWith (s ++ t) p = true.
Proof.
  revert s; induction p as [|x p IH]; intros s H; simpl in *; [reflexivity|].
  destruct s as [|y s]; [discriminate|]; simpl.
  apply andb_true_iff in H as [Hxy Hp].
  now rewrite Hxy, (IH s Hp).
Qed.

Lemma startsWith_trans s p q :
  startsWith s p = true -> startsWith p q = true -> startsWith s q = true.
Proof.
  intros Hs Hp.
  rewrite (startsWith_split _ _ Hs).
  now apply startsWith_prefix_app.
Qed.

Lemma includes_cons c s p :
  includes (c :: s) p = startsWith (c :: s) p || includes s p.
Proof. reflexivity. Qed.

Lemma includes_suffix a b p :
  includes (a ++ b) p = false -> includes b p = false.
Proof.
  induction a as [|x a IH]; simpl app; [trivial|].
  rewrite includes_cons; intros H.
  apply orb_false_iff in H as [_ H]; auto.
Qed.

Lemma includes_prefix a b p :
  includes (a ++ b) p = false -> includes a p = false.
Proof.
  induction a as [|x a IH]; intros H.
  - destruct (includes [] p) eqn:E; [|reflexivity].
    simpl in E. rewrite orb_false_r in E.
    destruct p; [|discriminate].
    destruct b; discriminate.
  - simpl app in H. rewrite includes_cons in *.
    apply orb_false_iff in H as [H1 H2].
    rewrite (IH H2), orb_false_r.
    destruct (startsWith (x :: a) p) eqn:E; [|reflexivity].
    pose proof (startsWith_prefix_app _ b _ E) as E'; simpl app in E'.
    congruence.
Qed.

Lemma includes_skipn n s p :
  includes s p = false -> includes (skipn n s) p = false.
Proof.
  intros H. rewrite <- (firstn_skipn n s) in H.
  now apply includes_suffix in H.
Qed.

(** A text without the first character of [p] can be put in front of a text
    that does not contain [p]. *)
Lemma includes_app_without x p a b :
  Forall (fun c => c <> x) a ->
  includes b (x :: p) = false -> includes (a ++ b) (x :: p) = false.
Proof.
  intros Ha Hb; induction Ha as [|y a Hy _ IH]; simpl app; [assumption|].
  rewrite includes_cons, IH, orb_false_r; simpl.
  destruct (N.eqb_spec x y); [congruence|reflexivity].
Qed.

(** *** Trimming *)

Lemma trimStart_suffix s : exists a, s = a ++ trimStart s.
Proof.
  induction s as [|c s [a IH]]; [now exists []|]; simpl.
  destruct (isWhiteSpace c).
  - exists (c :: a); simpl; congruence.
  - now exists [].
Qed.

Lemma trimEnd_prefix s : exists b, s = trimEnd s ++ b.
Proof.
  induction s as [|c s [b IH]]; [now exists []|]; simpl.
  destruct (trimEnd s) as [|d t] eqn:E.
  - destruct (isWhiteSpace c).
    + now exists (c :: s).
    + exists s; reflexivity.
  - exists b; simpl; f_equal; exact IH.
Qed.

Lemma trimStart_blank s : forallb isWhiteSpace s = true -> trimStart s = [].
Proof.
  induction s as [|c s IH]; simpl; [reflexivity|].
  intros H; apply andb_true_iff in H as [Hc Hs].
  now rewrite Hc; apply IH.
Qed.

Lemma trimStart_fixed c s : isWhiteSpace c = false -> trimStart (c :: s) = c :: s.
Proof. intros H; simpl; now rewrite H. Qed.

Lemma trimStart_head s c t : trimStart s = c :: t -> isWhiteSpace c = false.
Proof.
  induction s as [|d s IH]; simpl; [discriminate|].
  destruct (isWhiteSpace d) eqn:E; [exact IH|].
  intros [= -> _]; exact E.
Qed.

Lemma trimStart_idem s : trimStart (trimStart s) = trimStart s.
Proof.
  destruct (trimStart s) as [|c t] eqn:E; [reflexivity|].
  apply trimStart_fixed; eapply trimStart_head; eassumption.
Qed.

Lemma trimEnd_cons_nonempty c s :
  trimEnd s <> [] -> trimEnd (c :: s) = c :: trimEnd s.
Proof. simpl; destruct (trimEnd s); congruence. Qed.

Lemma trimEnd_app_nonempty a b :
  trimEnd b <> [] -> trimEnd (a ++ b) = a ++ trimEnd b.
Proof.
  intros Hb; induction a as [|c a IH]; [reflexivity|]; simpl app.
  rewrite trimEnd_cons_nonempty; rewrite IH; [reflexivity|].
  destruct a; simpl; [assumption|discriminate].
Qed.

Lemma trimEnd_idem s : trimEnd (trimEnd s) = trimEnd s.
Proof.
  induction s as [|c s IH]; [reflexivity|]; simpl.
  destruct (trimEnd s) as [|d t] eqn:E.
  - destruct (isWhiteSpace c) eqn:Ec; simpl; [reflexivity|now rewrite Ec].
  - rewrite trimEnd_cons_nonempty; [now rewrite IH|].
    rewrite IH; discriminate.
Qed.

(** A suffix of a text without trailing white space has none either. *)
Lemma trimEnd_fixed_suffix a b :
  trimEnd (a ++ b) = a ++ b -> b <> [] -> trimEnd b = b.
Proof.
  intros H Hb; induction a as [|c a IH]; [assumption|]; simpl app in H.
  apply IH. simpl in H.
  destruct (trimEnd (a ++ b)) as [|d t] eqn:E.
  - destruct (isWhiteSpace c); [discriminate|].
    injection H as H. destruct a; simpl in H; congruence.
  - now injection H.
Qed.

Lemma trimEnd_head c s d t :
  trimEnd (c :: s) = d :: t -> d = c.
Proof.
  simpl; destruct (trimEnd s); [destruct (isWhiteSpace c)|]; congruence.
Qed.

(** Trimming the end leaves a trimmed start alone. *)
Lemma trimStart_trimEnd s :
  trimStart s = s -> trimStart (trimEnd s) = trimEnd s.
Proof.
  intros H; destruct s as [|c s]; [reflexivity|].
  destruct (trimEnd (c :: s)) as [|d t] eqn:E; [reflexivity|].
  apply trimEnd_head in E; subst d.
  apply trimStart_fixed. eapply trimStart_head; eassumption.
Qed.

Lemma trim_idem s : trim (trim s) = trim s.
Proof.
  unfold trim.
  rewrite (trimStart_trimEnd (trimStart s) (trimStart_idem s)).
  apply trimEnd_idem.
Qed.

Lemma trim_blank s : forallb isWhiteSpace s = true -> trim s = [].
Proof. intros H; unfold trim; now rewrite trimStart_blank. Qed.

Lemma trim_empty_blank s : trim s = [] -> forallb isWhiteSpace s = true.
Proof.
  unfold trim; induction s as [|c s IH]; simpl; [reflexivity|].
  destruct (isWhiteSpace c) eqn:E; [exact IH|].
  simpl; destruct (trimEnd s); rewrite ?E; discriminate.
Qed.

Lemma includes_trim s p : includes s p = false -> includes (trim s) p = false.
Proof.
  intros H; unfold trim.
  destruct (trimStart_suffix s) as [a Ha].
  destruct (trimEnd_prefix (trimStart s)) as [b Hb].
  rewrite Ha in H; apply includes_suffix in H.
  rewrite Hb in H; now apply includes_prefix in H.
Qed.

End StringFacts.

(** * Facts about the sanitizer *)

Section SanitizerFacts.

Implicit Types (s t content code : str) (c : char).

Lemma eqb_eq s t : eqb s t = true <-> s = t.
Proof.
  revert t; induction s as [|x s IH]; intros [|y t]; simpl;
    try (split; congruence).
  rewrite andb_true_iff, N.eqb_eq, IH.
  split; [intros [-> ->]; reflexivity | intros [= -> ->]; auto].
Qed.

Lemma fence_leading s :
  startsWith s fence = true <-> 3 <= leading_backticks s.
Proof.
  change fence with [BACKTICK; BACKTICK; BACKTICK].
  destruct s as [|x [|y [|z s]]]; cbn [startsWith leading_backticks];
    repeat match goal with
      | |- context [(BACKTICK =? ?v)%N] =>
          destruct (BACKTICK =? v)%N; cbn [andb]
      end;
    split; intros; try reflexivity; try discriminate; lia.
Qed.

Lemma no_fence_no_match s : startsWith s fence = false -> match_fence s = None.
Proof. intros H; unfold match_fence; now rewrite H. Qed.

Lemma no_fence_no_match_mermaid s :
  startsWith s fence = false -> match_fence_mermaid s = None.
Proof.
  intros H; unfold match_fence_mermaid.
  destruct (startsWith s fence_mermaid) eqn:E; [|reflexivity].
  rewrite (startsWith_trans _ _ _ E) in H; [discriminate|reflexivity].
Qed.

(** A global replacement whose pattern matches nowhere changes nothing. *)
Lemma replaceAll_fixed (m : str -> option nat) by_ s :
  (forall t, startsWith t fence = false -> m t = None) ->
  includes s fence = false -> replaceAll m by_ s = s.
Proof.
  intros Hm; unfold replaceAll.
  induction s as [|c s IH]; [reflexivity|].
  rewrite includes_cons; intros H.
  apply orb_false_iff in H as [H1 H2].
  cbn [replaceAllFrom]. rewrite (Hm _ H1). now rewrite IH.
Qed.

Lemma match_fence_cases s :
  (startsWith s fence = true /\ match_fence s = Some 3)
  \/ (startsWith s fence = false /\ match_fence s = None).
Proof. unfold match_fence; destruct (startsWith s fence); auto. Qed.

(** What is left of a run of backticks is shorter than the run. *)
Lemma replaceAllFrom_leading s : forall k,
  leading_backticks (replaceAllFrom match_fence [] k s)
  <= leading_backticks (skipn k s).
Proof.
  induction s as [|c s IH]; intros k.
  - destruct k; simpl; lia.
  - destruct k as [|k]; cbn [replaceAllFrom skipn]; [|apply IH].
    destruct (match_fence_cases (c :: s)) as [[E ->] | [E ->]].
    + cbn [app].
      assert (Hs : c :: s = fence ++ skipn 2 s)
        by (apply startsWith_split in E; exact E).
      rewrite Hs. etransitivity; [apply IH|].
      change fence with [BACKTICK; BACKTICK; BACKTICK].
      cbn [app leading_backticks]. rewrite N.eqb_refl; lia.
    + specialize (IH 0); cbn [skipn] in IH.
      cbn [leading_backticks]. destruct (BACKTICK =? c)%N; lia.
Qed.

(** After the fences are removed, none is left. *)
Lemma replaceAllFrom_fence_free s : forall k,
  includes (replaceAllFrom match_fence [] k s) fence = false.
Proof.
  induction s as [|c s IH]; intros k; [reflexivity|].
  destruct k as [|k]; cbn [replaceAllFrom]; [|apply IH].
  destruct (match_fence_cases (c :: s)) as [[E ->] | [E ->]]; [apply IH|].
  rewrite includes_cons, IH, orb_false_r.
  destruct (startsWith (c :: replaceAllFrom match_fence [] 0 s) fence) eqn:F;
    [|reflexivity].
  apply fence_leading in F.
  assert (H : 3 <= leading_backticks (c :: s));
    [|apply fence_leading in H; congruence].
  pose proof (replaceAllFrom_leading s 0) as L; cbn [skipn] in L.
  cbn [leading_backticks] in *. destruct (BACKTICK =? c)%N; lia.
Qed.

Lemma replace_graph_cases s :
  replace_graph s = s \/ replace_graph s = lit "flowchart " ++ skipn 6 s.
Proof. unfold replace_graph; destruct startsWithIgnoreCase; auto. Qed.

Lemma replace_graph_fence_free s :
  includes s fence = false -> includes (replace_graph s) fence = false.
Proof.
  intros H; destruct (replace_graph_cases s) as [-> | ->]; [assumption|].
  apply includes_app_without; [|now apply includes_skipn].
  repeat constructor; discriminate.
Qed.

Lemma clean_fence_free content : includes (clean content) fence = false.
Proof.
  unfold clean, replaceAll.
  apply includes_trim, replace_graph_fence_free, replaceAllFrom_fence_free.
Qed.

Lemma strip_header_suffix s : exists a, s = a ++ strip_header s.
Proof.
  unfold strip_header; destruct (startsWith s header); [|now exists []].
  destruct (trimStart_suffix (skipn 12 s)) as [a Ha].
  exists (firstn 12 s ++ a).
  now rewrite <- app_assoc, <- Ha, firstn_skipn.
Qed.

Lemma ensure_header_fence_free code :
  includes code fence = false -> includes (ensure_header code) fence = false.
Proof.
  intros H; unfold ensure_header.
  destruct (startsWith code header_nl); [assumption|]; cbn [negb].
  apply includes_app_without; [repeat constructor; discriminate|].
  destruct (strip_header_suffix code) as [a Ha].
  rewrite Ha in H; now apply includes_suffix in H.
Qed.

Lemma ensure_header_starts code :
  startsWith (ensure_header code) header_nl = true.
Proof.
  unfold ensure_header.
  destruct (startsWith code header_nl) eqn:E; [assumption|].
  apply startsWith_app.
Qed.

(** The guard of the last replacement never fires behind the header line. *)
Lemma newline_guard_fixed s :
  startsWith s header_nl = true -> newline_guard s = s.
Proof.
  intros H; apply startsWith_split in H.
  rewrite H; generalize (skipn (List.length header_nl) s); intros r.
  reflexivity.
Qed.

Lemma sanitize_unfold content : sanitize content = ensure_header (clean content).
Proof. apply newline_guard_fixed, ensure_header_starts. Qed.

End SanitizerFacts.

(** * The sanitizer: header, fences, fixed points *)

Section SanitizerProperties.

Implicit Types (s t content code : str) (c : char).


Lemma clean_trimmed_end content : trimEnd (clean content) = clean content.
Proof. unfold clean, trim; apply trimEnd_idem. Qed.

(** On the header followed by a character, the last two steps put a line
    feed between them. *)
Lemma header_then_char c rest :
  newline_guard (ensure_header (header ++ c :: rest))
  = header_nl ++ (if (c =? LF)%N then rest else trimStart (c :: rest)).
Proof.
  rewrite newline_guard_fixed by apply ensure_header_starts.
  unfold ensure_header.
  destruct (N.eqb_spec c LF) as [-> | Hc]; [reflexivity|].
  replace (startsWith (header ++ c :: rest) header_nl) with false;
    [reflexivity|].
  change (false = ((LF =? c)%N && true)).
  rewrite andb_true_r; symmetry; apply N.eqb_neq; congruence.
Qed.

(** Every output of the sanitizer is in canonical form. *)
Lemma sanitize_canonical content : canonical (sanitize content) = true.
Proof.
  rewrite sanitize_unfold; unfold canonical.
  rewrite ensure_header_starts.
  rewrite (ensure_header_fence_free _ (clean_fence_free content)).
  cbn [andb negb]; apply eqb_eq.
  pose proof (clean_trimmed_end content) as T.
  assert (S : forall a b, clean content = a ++ b -> trimEnd b = b).
  { intros a [|x b] E; [reflexivity|].
    apply (trimEnd_fixed_suffix a); [|discriminate].
    now rewrite <- E. }
  unfold ensure_header.
  destruct (startsWith (clean content) header_nl) eqn:E; cbn [negb].
  - apply startsWith_split in E. exact (S _ _ E).
  - destruct (strip_header_suffix (clean content)) as [a Ha].
    exact (S _ _ Ha).
Qed.

(** The sanitizer leaves a text in canonical form as it is. *)
Lemma canonical_fixed s : canonical s = true -> sanitize s = s.
Proof.
  unfold canonical; intros H.
  apply andb_true_iff in H as [H H3]; apply andb_true_iff in H as [H1 H2].
  apply negb_true_iff in H2; apply eqb_eq in H3.
  pose proof (startsWith_split _ _ H1) as E.
  change (List.length header_nl) with 13 in E.
  destruct (skipn 13 s) as [|b body] eqn:B.
  - rewrite E; vm_compute; reflexivity.
  - assert (T : trim s = s).
    { unfold trim. replace (trimStart s) with s by (rewrite E; reflexivity).
      rewrite E at 1. rewrite trimEnd_app_nonempty; rewrite H3;
        [symmetry; exact E | discriminate]. }
    rewrite sanitize_unfold; unfold clean.
    rewrite T.
    rewrite (replaceAll_fixed _ [] s no_fence_no_match_mermaid H2).
    rewrite (replaceAll_fixed _ [] s no_fence_no_match H2).
    replace (replace_graph s) with s by (rewrite E; reflexivity).
    rewrite T. unfold ensure_header; now rewrite H1.
Qed.

End SanitizerProperties.

(** The two scenarios of the specification, a fence with another tag (the
    fence goes, the tag stays), fences inside the text, and a legacy keyword
    in capitals. *)
Example sanitize_fenced_graph :
  sanitize (lines ["```mermaid"; "graph TD"; "A[Start]-->B[End]"; "```"])
  = lines ["flowchart TD"; "A[Start]-->B[End]"].
Proof. vm_compute; reflexivity. Qed.

Example sanitize_missing_newline :
  sanitize (lit "flowchart TDA[Start]-->B[End]")
  = lines ["flowchart TD"; "A[Start]-->B[End]"].
Proof. vm_compute; reflexivity. Qed.

Example sanitize_other_tag :
  sanitize (lines ["```js"; "A-->B"; "```"])
  = lines ["flowchart TD"; "js"; "A-->B"].
Proof. vm_compute; reflexivity. Qed.

Example sanitize_inner_fences :
  sanitize (lines ["Here:"; "```mermaid"; "flowchart TD"; "A-->B"; "```"; "and";
                   "```"; "C-->D"; "```"])
  = lines ["flowchart TD"; "Here:"; "flowchart TD"; "A-->B"; ""; "and"; "";
           "C-->D"].
Proof. vm_compute; reflexivity. Qed.

Example sanitize_legacy_keyword :
  sanitize (lines ["GRAPH LR"; "A-->B"])
  = lines ["flowchart TD"; "flowchart LR"; "A-->B"].
Proof. vm_compute; reflexivity. Qed.

(** C1. For every completion text the output of the sanitizer starts with the
    header line [flowchart TD] and a line feed.  A cleaned text that starts
    with that line is kept; from any other the header (with the white space
    behind it) is stripped and the header line is put in front.  When a
    character other than a line feed follows the header, a line feed ends up
    between the two. *)
Theorem sanitize_starts_with_header_line (content : str) :
  startsWith (sanitize content) header_nl = true
  /\ sanitize content =
       (if startsWith (clean content) header_nl then clean content
        else header_nl ++ strip_header (clean content))
  /\ (forall c rest,
        newline_guard (ensure_header (header ++ c :: rest))
        = header_nl ++ (if (c =? LF)%N then rest else trimStart (c :: rest))).
Proof.
  split; [|split].
  - rewrite sanitize_unfold; apply ensure_header_starts.
  - rewrite sanitize_unfold; unfold ensure_header.
    now destruct (startsWith (clean content) header_nl).
  - apply header_then_char.
Qed.


(** C6. Sanitizing twice gives what sanitizing once gives.  This holds for
    every text: the output of the sanitizer is canonical, and a canonical
    text is a fixed point. *)
Theorem sanitize_idempotent (content : str) :
  canonical (sanitize content) = true
  /\ sanitize (sanitize content) = sanitize content.
Proof.
  split; [apply sanitize_canonical|].
  apply canonical_fixed, sanitize_canonical.
Qed.

(** C10. A completion text that is empty or all white space is sanitized to
    the header line alone. *)
Theorem sanitize_blank (content : str) :
  forallb isWhiteSpace content = true ->
  sanitize content = header_nl
  /\ newline_guard header_nl = header_nl.
Proof.
  intros H; split; [|reflexivity].
  unfold sanitize, clean. rewrite (trim_blank _ H). reflexivity.
Qed.

Lemma sanitize_blank_witness :
  forallb isWhiteSpace [32; 9; LF; 160]%N = true
  /\ sanitize [32; 9; LF; 160]%N = header_nl.
Proof.
  split; [reflexivity|].
  apply (sanitize_blank [32; 9; LF; 160]%N); reflexivity.
Defined.

(** * The view scale *)

Section NumberFacts.

Implicit Types (x y : number).

Lemma Math_min_two x :
  isNaN x = false -> Math_min [two; x] = if SFltb x two then x else two.
Proof.
  intros Hx. change (Math_min [two; x]) with (Math_min_from two [x]).
  cbn [Math_min_from]. rewrite Hx.
  change (isPosZero two) with false. now rewrite andb_false_r.
Qed.

Lemma Math_max_tenth x :
  isNaN x = false -> Math_max [tenth; x] = if SFltb tenth x then x else tenth.
Proof.
  intros Hx. change (Math_max [tenth; x]) with (Math_max_from tenth [x]).
  cbn [Math_max_from]. rewrite Hx.
  change (isNegZero tenth) with false. now rewrite andb_false_r.
Qed.

Lemma SFltb_leb x y : SFltb x y = true -> SFleb x y = true.
Proof. unfold SFltb, SFleb; destruct (SFcompare x y) as [[]|]; congruence. Qed.

(** The clamp of [handleZoom] lands in the interval, whatever the sum was
    rounded to, as long as it is a number. *)
Lemma clamp_in_range x :
  isNaN x = false -> in_range (Math_max [tenth; Math_min [two; x]]) = true.
Proof.
  intros Hx. rewrite (Math_min_two _ Hx).
  destruct (SFltb x two) eqn:E2.
  - rewrite (Math_max_tenth _ Hx).
    destruct (SFltb tenth x) eqn:E1; [|reflexivity].
    unfold in_range. now rewrite (SFltb_leb _ _ E1), (SFltb_leb _ _ E2).
  - reflexivity.
Qed.

(** Rounding a non-negative mantissa never gives NaN. *)
Lemma shr_1_nonneg mrs : (0 <= shr_m mrs)%Z -> (0 <= shr_m (shr_1 mrs))%Z.
Proof.
  destruct mrs as [m r s]; simpl.
  destruct m as [|p|p]; try destruct p; simpl; lia.
Qed.

Lemma iter_pos_nonneg p : forall mrs,
  (0 <= shr_m mrs)%Z -> (0 <= shr_m (iter_pos shr_1 p mrs))%Z.
Proof.
  induction p as [p IH|p IH|]; intros mrs H; simpl.
  - apply IH, IH, shr_1_nonneg, H.
  - apply IH, IH, H.
  - apply shr_1_nonneg, H.
Qed.

Lemma shr_fexp_nonneg m e l :
  (0 <= m)%Z -> (0 <= shr_m (fst (shr_fexp prec emax m e l)))%Z.
Proof.
  intros H; unfold shr_fexp, shr.
  assert (H0 : (0 <= shr_m (shr_record_of_loc m l))%Z)
    by (destruct l as [|[]]; exact H).
  destruct (fexp prec emax (Zdigits2 m + e) - e)%Z; simpl; auto.
  now apply iter_pos_nonneg.
Qed.

Lemma round_nearest_even_nonneg m l :
  (0 <= m)%Z -> (0 <= round_nearest_even m l)%Z.
Proof.
  intros H; destruct l as [|[]]; simpl; try destruct (Z.even m); lia.
Qed.

Lemma binary_round_aux_not_nan sx mx ex lx :
  (0 <= mx)%Z -> isNaN (binary_round_aux prec emax sx mx ex lx) = false.
Proof.
  intros H; unfold binary_round_aux.
  pose proof (shr_fexp_nonneg mx ex lx H) as H1.
  destruct (shr_fexp prec emax mx ex lx) as [mrs' e']; simpl fst in H1.
  pose proof (shr_fexp_nonneg _ e' loc_Exact
                (round_nearest_even_nonneg _ (loc_of_shr_record mrs') H1)) as H2.
  destruct (shr_fexp prec emax _ e' loc_Exact) as [mrs'' e'']; simpl fst in H2.
  destruct (shr_m mrs'') as [|p|p]; [reflexivity| |lia].
  now destruct (e'' <=? emax - prec)%Z.
Qed.

(** The sum of two finite numbers is a number. *)
Lemma add_finite_not_nan sx mx ex sy my ey :
  isNaN (add (S754_finite sx mx ex) (S754_finite sy my ey)) = false.
Proof.
  unfold add, SFadd, binary_normalize.
  match goal with
  | |- context [match ?z with Z0 => _ | Zpos _ => _ | Zneg _ => _ end] =>
      destruct z
  end; [reflexivity| |];
  unfold binary_round;
  match goal with
  | |- context [shl_align ?a ?b ?c] => destruct (shl_align a b c)
  end;
  now apply binary_round_aux_not_nan.
Qed.

Lemma in_range_finite x :
  in_range x = true -> exists s m e, x = S754_finite s m e.
Proof.
  destruct x as [s|s| |s m e]; try (destruct s; discriminate); [discriminate|].
  now exists s, m, e.
Qed.

Lemma handleZoom_in_range (s : State) (delta : number) :
  in_range (scale s) = true -> (delta = tenth \/ delta = neg tenth) ->
  in_range (scale (handleZoom delta s)) = true.
Proof.
  intros H D; cbn [handleZoom setScale scale].
  apply clamp_in_range.
  destruct (in_range_finite _ H) as (sx & mx & ex & ->).
  destruct D as [-> | ->]; apply add_finite_not_nan.
Qed.

Lemma step_scale_in_range (c : Component) (e : Event) :
  in_range (scale (view c)) = true ->
  in_range (scale (view (step c e))) = true.
Proof.
  intros H; destruct e; cbn [step].
  - exact H.
  - unfold click_submit, handleGenerate_start.
    destruct (submit_disabled (view c)); [exact H|].
    destruct (negb (truthy (trim (prompt (view c))))); exact H.
  - destruct (suspended c); [|exact H].
    unfold handleGenerate_settle; destruct (try_block fetched); exact H.
  - apply handleZoom_in_range; auto.
  - apply handleZoom_in_range; auto.
  - destruct (truthy (mermaidCode (view c))); exact H.
Qed.

Lemma run_from_snoc (c : Component) (events : list Event) (e : Event) :
  run_from c (events ++ [e]) = step (run_from c events) e.
Proof. unfold run_from; now rewrite fold_left_app. Qed.

End NumberFacts.

(** The sum is rounded as binary64 rounds it: two clicks on zoom-in give
    1.2000000000000002; fifteen clicks either way end on the bound. *)
Example zoom_in_twice :
  scale (view (run [ClickZoomIn; ClickZoomIn]))
  = S754_finite false 5404319552844596 (-52).
Proof. vm_compute; reflexivity. Qed.

Example zoom_in_saturates : scale (view (run (repeat ClickZoomIn 15))) = two.
Proof. vm_compute; reflexivity. Qed.

Example zoom_out_saturates : scale (view (run (repeat ClickZoomOut 15))) = tenth.
Proof. vm_compute; reflexivity. Qed.

(** C7. The view scale starts at 1 and stays in the interval from 0.1 to 2
    after any sequence of events, clicks on the two zoom buttons among them:
    [0.1 <= scale] and [scale <= 2] hold on binary64 numbers. *)
Theorem scale_always_in_range (events : list Event) :
  scale (view (run [])) = one
  /\ SFleb tenth (scale (view (run events))) = true
  /\ SFleb (scale (view (run events))) two = true.
Proof.
  split; [reflexivity|].
  apply andb_true_iff. change (in_range (scale (view (run events))) = true).
  induction events as [|e events IH] using rev_ind; [reflexivity|].
  unfold run; rewrite run_from_snoc. now apply step_scale_in_range.
Qed.

(** * The conversation and the request status *)

Section ComponentFacts.

Implicit Types (s : State) (c : Component) (e : Event).

Lemma click_submit_enabled s :
  submit_disabled s = false ->
  click_submit s = Some (setError None (setLoading true s), updatedMessages s).
Proof.
  intros H; unfold click_submit, handleGenerate_start; rewrite H.
  apply orb_false_iff in H as [_ H]; now rewrite H.
Qed.

Lemma click_submit_disabled s : submit_disabled s = true -> click_submit s = None.
Proof. intros H; unfold click_submit; now rewrite H. Qed.

(** The early [return] of the handler itself. *)
Lemma handleGenerate_blank s :
  forallb isWhiteSpace (prompt s) = true -> handleGenerate_start s = None.
Proof.
  intros H; unfold handleGenerate_start; now rewrite (trim_blank _ H).
Qed.

Lemma blank_disabled s :
  forallb isWhiteSpace (prompt s) = true -> submit_disabled s = true.
Proof.
  intros H; unfold submit_disabled; rewrite (trim_blank _ H).
  apply orb_true_r.
Qed.

Lemma updatedMessages_extends s :
  updatedMessages s =
  messages s ++ {| role := user; content := prompt s |}
    :: (if truthy (mermaidCode s)
        then [{| role := assistant; content := context_note (mermaidCode s) |}]
        else []).
Proof.
  unfold updatedMessages; destruct (truthy (mermaidCode s)); [|reflexivity].
  now rewrite <- app_assoc.
Qed.

(** The two failures that the handler tells apart. *)
Lemma try_block_rejected (err : Thrown) : try_block (inl err) = inl err.
Proof. reflexivity. Qed.

Lemma try_block_not_ok (r : Response) :
  ok r = false ->
  try_block (inr r) = inl (ErrorObject (lit "API error: " ++ statusText r)).
Proof. intros H; unfold try_block; cbn [bind]; now rewrite H. Qed.

(** While a handler is suspended, no event but the settling of its [fetch]
    touches the history, the diagram source or the request status. *)
Lemma waiting_step c e updated :
  settles e = false -> loading (view c) = true ->
  suspended c = Some updated ->
  loading (view (step c e)) = true
  /\ suspended (step c e) = Some updated
  /\ messages (view (step c e)) = messages (view c)
  /\ mermaidCode (view (step c e)) = mermaidCode (view c).
Proof.
  intros He Hl Hs; destruct e; try discriminate; cbn [step].
  - auto.
  - rewrite click_submit_disabled; [auto|].
    unfold submit_disabled; now rewrite Hl.
  - auto.
  - auto.
  - destruct (truthy (mermaidCode (view c))); auto.
Qed.

Lemma waiting_run events : forall c updated,
  forallb (fun e => negb (settles e)) events = true ->
  loading (view c) = true -> suspended c = Some updated ->
  loading (view (run_from c events)) = true
  /\ suspended (run_from c events) = Some updated
  /\ messages (view (run_from c events)) = messages (view c)
  /\ mermaidCode (view (run_from c events)) = mermaidCode (view c).
Proof.
  induction events as [|e events IH]; intros c updated H Hl Hs; [auto|].
  cbn [forallb] in H; apply andb_true_iff in H as [He H].
  apply negb_true_iff in He.
  destruct (waiting_step c e updated He Hl Hs) as (Hl' & Hs' & Hm & Hd).
  destruct (IH (step c e) updated H Hl' Hs') as (? & ? & ? & ?).
  change (run_from c (e :: events)) with (run_from (step c e) events).
  repeat split; congruence.
Qed.

Lemma step_history c e :
  history_invariant c ->
  history_invariant (step c e)
  /\ exists added, messages (view (step c e)) = messages (view c) ++ added.
Proof.
  intros [Hs Hh].
  assert (same : forall c', messages (view c') = messages (view c) ->
            suspended c' = suspended c ->
            history_invariant c'
            /\ exists added, messages (view c') = messages (view c) ++ added).
  { intros c' Hm Hs'; split; [split|].
    - rewrite Hs', Hm; exact Hs.
    - now rewrite Hm.
    - exists []; now rewrite app_nil_r. }
  destruct e; cbn [step].
  - now apply same.
  - unfold click_submit, handleGenerate_start.
    destruct (submit_disabled (view c)); [now apply same|].
    destruct (negb (truthy (trim (prompt (view c))))); [now apply same|].
    split; [split|]; cbn [view suspended setError setLoading messages].
    + intros updated [= <-]. rewrite updatedMessages_extends; eauto.
    + exact Hh.
    + exists []; now rewrite app_nil_r.
  - destruct (suspended c) as [updated|] eqn:E; [|now apply same].
    destruct (Hs updated eq_refl) as [added ->].
    unfold handleGenerate_settle.
    destruct (try_block fetched) as [err|code];
      (split; [split|]); cbn; try discriminate.
    + exact Hh.
    + exists []; now rewrite app_nil_r.
    + rewrite <- app_assoc. destruct (messages (view c)); [discriminate|exact Hh].
    + rewrite <- app_assoc; eauto.
  - now apply same.
  - now apply same.
  - destruct (truthy (mermaidCode (view c))); now apply same.
Qed.

Lemma run_history events : history_invariant (run events).
Proof.
  induction events as [|e events IH] using rev_ind.
  - split; [discriminate|reflexivity].
  - unfold run; rewrite run_from_snoc. now apply step_history.
Qed.

(** One handler at most is suspended: [loading] tells whether one is, so
    the submit button is disabled exactly while a request is in flight. *)
Lemma step_single_request c e :
  loading (view c) = in_flight c ->
  loading (view (step c e)) = in_flight (step c e).
Proof.
  unfold in_flight; intros H; destruct e; cbn [step]; try exact H.
  - unfold click_submit, handleGenerate_start.
    destruct (submit_disabled (view c)); [exact H|].
    destruct (negb (truthy (trim (prompt (view c))))); [exact H|reflexivity].
  - destruct (suspended c) eqn:E; [|now rewrite E].
    unfold handleGenerate_settle; now destruct (try_block fetched).
  - destruct (truthy (mermaidCode (view c))); exact H.
Qed.

Lemma run_single_request events :
  loading (view (run events))
  = in_flight (run events).
Proof.
  induction events as [|e events IH] using rev_ind; [reflexivity|].
  unfold run; rewrite run_from_snoc. now apply step_single_request.
Qed.

End ComponentFacts.

(** C3, as the code has it.  A generation cycle that succeeds appends the
    user message, then the note with the current diagram source when there
    is a diagram, then the assistant message with the sanitized completion:
    two messages without a diagram, three with one.  A cycle that fails
    appends nothing. *)
Theorem generation_cycle_appends (s : State) (fetched : Result Response) :
  submit_disabled s = false ->
  messages (generation_cycle s fetched) =
    match try_block fetched with
    | inr code =>
        messages s ++ {| role := user; content := prompt s |}
          :: (if truthy (mermaidCode s)
              then [{| role := assistant;
                       content := context_note (mermaidCode s) |}]
              else [])
          ++ [{| role := assistant; content := code |}]
    | inl _ => messages s
    end
  /\ List.length (messages (generation_cycle s fetched)) =
       List.length (messages s)
       + match try_block fetched with
         | inr _ => if truthy (mermaidCode s) then 3 else 2
         | inl _ => 0
         end.
Proof.
  intros H.
  assert (E : messages (generation_cycle s fetched) =
    match try_block fetched with
    | inr code =>
        messages s ++ {| role := user; content := prompt s |}
          :: (if truthy (mermaidCode s)
              then [{| role := assistant;
                       content := context_note (mermaidCode s) |}]
              else [])
          ++ [{| role := assistant; content := code |}]
    | inl _ => messages s
    end).
  { unfold generation_cycle; rewrite (click_submit_enabled _ H).
    unfold handleGenerate_settle.
    destruct (try_block fetched) as [err|code]; [reflexivity|].
    cbn [messages setLoading setPrompt setMermaidCode setMessages].
    rewrite updatedMessages_extends, <- app_assoc; reflexivity. }
  split; [exact E|].
  rewrite E; destruct (try_block fetched) as [err|code]; [lia|].
  rewrite length_app; destruct (truthy (mermaidCode s)); cbn; lia.
Qed.

Lemma generation_cycle_appends_witness :
  submit_disabled (view first_prompt) = false
  /\ List.length (messages (generation_cycle (view first_prompt)
                              (answered (lit "A-->A")))) = 1 + 2
  /\ List.length (messages (generation_cycle (view second_prompt)
                              (answered (lit "A-->B")))) = 3 + 3.
Proof.
  split; [reflexivity|split].
  - exact (proj2 (generation_cycle_appends (view first_prompt)
                    (answered (lit "A-->A")) eq_refl)).
  - exact (proj2 (generation_cycle_appends (view second_prompt)
                    (answered (lit "A-->B")) eq_refl)).
Defined.

(** C3, as the claim has it, fails on the second cycle of a session: the
    cycle succeeds and the history grows by three messages, two of them
    assistant messages. *)
Lemma generation_cycle_grows_by_three :
  List.length
    (messages (view (run_from second_prompt
                       [ClickSubmit; FetchSettled (answered (lit "A-->B"))])))
    <> List.length (messages (view second_prompt)) + 2
  /\ map role
       (skipn (List.length (messages (view second_prompt)))
          (messages (view (run_from second_prompt
                             [ClickSubmit;
                              FetchSettled (answered (lit "A-->B"))]))))
     = [user; assistant; assistant].
Proof. vm_compute; split; [discriminate|reflexivity]. Qed.

(** C4. A completion call that fails (the [fetch] rejects, the status is
    not a success, or the body cannot be read) leaves the messages and the
    diagram source as they were at the click, whatever was typed or zoomed
    in between; the request status is idle again and the error text is
    set. *)
Theorem failed_generation_is_atomic (c : Component) (between : list Event)
    (fetched : Result Response) (err : Thrown) :
  submit_disabled (view c) = false ->
  forallb (fun e => negb (settles e)) between = true ->
  try_block fetched = inl err ->
  let c' := run_from c (ClickSubmit :: between ++ [FetchSettled fetched]) in
  messages (view c') = messages (view c)
  /\ mermaidCode (view c') = mermaidCode (view c)
  /\ loading (view c') = false
  /\ suspended c' = None
  /\ error (view c') = Some (error_text err).
Proof.
  intros H Hb Hf c'; subst c'.
  change (run_from c (ClickSubmit :: between ++ [FetchSettled fetched]))
    with (run_from (step c ClickSubmit) (between ++ [FetchSettled fetched])).
  rewrite run_from_snoc.
  assert (Hc : step c ClickSubmit =
               {| view := setError None (setLoading true (view c));
                  suspended := Some (updatedMessages (view c)) |})
    by (cbn [step]; now rewrite (click_submit_enabled _ H)).
  destruct (waiting_run between (step c ClickSubmit)
              (updatedMessages (view c)) Hb)
    as (_ & Hs & Hm & Hd); [now rewrite Hc..|].
  assert (Hm0 : messages (view (step c ClickSubmit)) = messages (view c))
    by now rewrite Hc.
  assert (Hd0 : mermaidCode (view (step c ClickSubmit)) = mermaidCode (view c))
    by now rewrite Hc.
  rewrite Hm0 in Hm; rewrite Hd0 in Hd.
  set (c1 := run_from (step c ClickSubmit) between) in *.
  cbn [step]; rewrite Hs; unfold handleGenerate_settle; rewrite Hf.
  cbn; auto.
Qed.

Lemma failed_generation_is_atomic_witness :
  submit_disabled (view second_prompt) = false
  /\ messages (view (run_from second_prompt
                       [ClickSubmit; Typed (lit "add an exit, please");
                        ClickZoomIn;
                        FetchSettled (refused (lit "Too Many Requests"))]))
     = messages (view second_prompt)
  /\ error (view (run_from second_prompt
                    [ClickSubmit; Typed (lit "add an exit, please");
                     ClickZoomIn;
                     FetchSettled (refused (lit "Too Many Requests"))]))
     = Some (lit "API error: Too Many Requests").
Proof.
  split; [reflexivity|].
  pose proof (failed_generation_is_atomic second_prompt
                [Typed (lit "add an exit, please"); ClickZoomIn]
                (refused (lit "Too Many Requests"))
                (ErrorObject (lit "API error: Too Many Requests"))
                eq_refl eq_refl eq_refl) as (Hm & _ & _ & _ & He).
  split; [exact Hm | exact He].
Defined.

(** C5. The request that a click sends carries the stored messages, then the
    user message with the prompt, then, exactly when the diagram source is
    not empty, one assistant message: the diagram source between
    [Current flowchart code:] and the sentence that asks to modify it. *)
Theorem request_messages_with_context (s : State) :
  submit_disabled s = false ->
  option_map req_messages (sent_request s) =
    Some (messages s ++ {| role := user; content := prompt s |}
            :: (if truthy (mermaidCode s)
                then [{| role := assistant;
                         content :=
                           lit "Current flowchart code:" ++ LF :: mermaidCode s
                           ++ LF :: lit "Please modify this based on the user's request." |}]
                else [])).
Proof.
  intros H; unfold sent_request; rewrite (click_submit_enabled _ H).
  cbn [option_map req_messages request_body].
  now rewrite updatedMessages_extends.
Qed.

Lemma request_messages_with_context_witness :
  submit_disabled (view second_prompt) = false
  /\ option_map req_messages (sent_request (view second_prompt))
     = Some [system_message;
             {| role := user; content := lit "draw a loop" |};
             {| role := assistant; content := lines ["flowchart TD"; "A-->A"] |};
             {| role := user; content := lit "add an exit" |};
             {| role := assistant;
                content := lines ["Current flowchart code:"; "flowchart TD";
                                  "A-->A";
                                  "Please modify this based on the user's request."] |}].
Proof.
  split; [reflexivity|].
  exact (request_messages_with_context (view second_prompt) eq_refl).
Defined.

(** C8. Whatever happens to the component, the messages it had are a prefix
    of the messages it has afterwards, and the system message of the start
    is the first one. *)
Theorem conversation_append_only (events : list Event) (e : Event) :
  messages (view (run [])) = [system_message]
  /\ (exists added,
        messages (view (run (events ++ [e])))
        = messages (view (run events)) ++ added)
  /\ hd_error (messages (view (run events))) = Some system_message.
Proof.
  split; [reflexivity|].
  pose proof (run_history events) as I.
  split; [|exact (proj2 I)].
  unfold run at 1; rewrite run_from_snoc.
  exact (proj2 (step_history (run events) e I)).
Qed.

(** C9. A click on the submit button while the prompt is empty or all white
    space, or while a request is in flight, changes nothing and sends
    nothing. *)
Theorem rejected_submission_is_noop (c : Component) :
  forallb isWhiteSpace (prompt (view c)) = true \/ loading (view c) = true ->
  step c ClickSubmit = c /\ sent_request (view c) = None.
Proof.
  intros H.
  assert (D : submit_disabled (view c) = true).
  { destruct H as [H | H]; [now apply blank_disabled|].
    unfold submit_disabled; now rewrite H. }
  unfold sent_request; cbn [step].
  now rewrite (click_submit_disabled _ D).
Qed.

Lemma rejected_submission_is_noop_witness :
  (forallb isWhiteSpace (prompt (view (run [Typed [32; LF; 9]%N]))) = true
   /\ step (run [Typed [32; LF; 9]%N]) ClickSubmit = run [Typed [32; LF; 9]%N])
  /\ (loading (view (step first_prompt ClickSubmit)) = true
      /\ step (step first_prompt ClickSubmit) ClickSubmit
         = step first_prompt ClickSubmit).
Proof.
  split; (split; [reflexivity|]).
  - apply (rejected_submission_is_noop (run [Typed [32; LF; 9]%N])).
    left; reflexivity.
  - apply (rejected_submission_is_noop (step first_prompt ClickSubmit)).
    right; reflexivity.
Defined.

(** * The shape of a session *)

Section SessionFacts.

Implicit Types (s : State) (c : Component) (e : Event).

Lemma try_block_sanitized (fetched : Result Response) (code : str) :
  try_block fetched = inr code -> exists content, code = sanitize content.
Proof.
  unfold try_block; destruct fetched as [err|r]; cbn [bind]; [discriminate|].
  destruct (negb (ok r)); cbn [bind throw ret]; [discriminate|].
  destruct (json r) as [err|content]; cbn [bind ret]; [discriminate|].
  intros [= <-]; now exists content.
Qed.

Lemma sanitize_truthy content : truthy (sanitize content) = true.
Proof.
  pose proof (ensure_header_starts (clean content)) as H.
  rewrite <- sanitize_unfold in H.
  now destruct (sanitize content).
Qed.

Lemma canonical_truthy (t : str) : canonical t = true -> truthy t = true.
Proof.
  unfold canonical; intros H.
  apply andb_true_iff in H as [H _]; apply andb_true_iff in H as [H _].
  now destruct t.
Qed.

Lemma later_exchanges_app (roles : list Role) :
  later_exchanges roles = true ->
  later_exchanges (roles ++ [user; assistant; assistant]) = true.
Proof.
  assert (G : forall n roles, List.length roles <= n ->
            later_exchanges roles = true ->
            later_exchanges (roles ++ [user; assistant; assistant]) = true).
  { induction n as [|n IH]; intros l Hl H.
    - destruct l; [reflexivity|simpl in Hl; lia].
    - destruct l as [|[] [|[] [|[] l]]]; try discriminate; [reflexivity|].
      cbn [app later_exchanges] in *. apply IH; [simpl in Hl; lia|exact H]. }
  intros H; exact (G (List.length roles) roles (le_n _) H).
Qed.

Lemma session_roles_later (roles : list Role) :
  session_roles roles = true -> last roles system = assistant ->
  session_roles (roles ++ [user; assistant; assistant]) = true.
Proof.
  destruct roles as [|[] [|[] [|[] l]]]; try discriminate.
  intros H _; cbn [app session_roles] in *. now apply later_exchanges_app.
Qed.

Lemma step_session c e : session_invariant c -> session_invariant (step c e).
Proof.
  intros (Hr & Hd & Hs).
  assert (same : forall c', messages (view c') = messages (view c) ->
            mermaidCode (view c') = mermaidCode (view c) ->
            suspended c' = suspended c -> session_invariant c').
  { intros c' Hm Hc Hs'; unfold session_invariant.
    rewrite Hm, Hc, Hs'; auto. }
  destruct e; cbn [step].
  - now apply same.
  - unfold click_submit, handleGenerate_start.
    destruct (submit_disabled (view c)); [now apply same|].
    destruct (negb (truthy (trim (prompt (view c))))); [now apply same|].
    split; [exact Hr|split; [exact Hd|]].
    cbn [view suspended setError setLoading messages mermaidCode].
    intros updated [= <-]. rewrite updatedMessages_extends; eauto.
  - destruct (suspended c) as [updated|] eqn:E; [|now apply same].
    destruct (Hs updated eq_refl) as [text ->].
    unfold handleGenerate_settle.
    destruct (try_block fetched) as [err|code] eqn:T.
    + split; [exact Hr|split; [exact Hd|discriminate]].
    + destruct (try_block_sanitized _ _ T) as [content ->].
      unfold session_invariant.
      cbn [view suspended setLoading setPrompt setMermaidCode setMessages
           messages mermaidCode].
      split; [|split; [right; split; [apply sanitize_canonical|eauto]
                      |discriminate]].
      destruct Hd as [[Hc Hm] | [Hc [earlier Hm]]].
      * rewrite Hc, Hm; reflexivity.
      * rewrite (canonical_truthy _ Hc).
        rewrite <- app_assoc; cbn [app]; rewrite map_app; cbn [map role].
        apply session_roles_later; [exact Hr|].
        rewrite Hm, map_app; cbn [map role]. now rewrite last_last.
  - now apply same.
  - now apply same.
  - destruct (truthy (mermaidCode (view c))); now apply same.
Qed.

Lemma run_session events : session_invariant (run events).
Proof.
  induction events as [|e events IH] using rev_ind.
  - split; [reflexivity|split; [now left|discriminate]].
  - unfold run; rewrite run_from_snoc. now apply step_session.
Qed.

Lemma step_diagram_stays c e :
  truthy (mermaidCode (view c)) = true ->
  truthy (mermaidCode (view (step c e))) = true.
Proof.
  intros H; destruct e; cbn [step]; try exact H.
  - unfold click_submit, handleGenerate_start.
    destruct (submit_disabled (view c)); [exact H|].
    destruct (negb (truthy (trim (prompt (view c))))); exact H.
  - destruct (suspended c); [|exact H].
    unfold handleGenerate_settle.
    destruct (try_block fetched) as [err|code] eqn:T; [exact H|].
    destruct (try_block_sanitized _ _ T) as [content ->].
    apply sanitize_truthy.
  - rewrite H; exact H.
Qed.

End SessionFacts.

(** Canonical form spelled out: the header line, then a body without white
    space at its end (the body may be empty, the text is then the header
    line with its line feed), and no fence anywhere. *)
Lemma canonical_body (s : str) :
  canonical s = true
  <-> exists body,
        s = header_nl ++ body
        /\ includes s fence = false
        /\ trimEnd body = body.
Proof.
  unfold canonical; split.
  - intros H.
    apply andb_true_iff in H as [H H3]; apply andb_true_iff in H as [H1 H2].
    apply negb_true_iff in H2; apply eqb_eq in H3.
    exists (skipn 13 s); split; [|split; assumption].
    exact (startsWith_split _ _ H1).
  - intros (body & E & F & T).
    rewrite F; rewrite E at 1; rewrite startsWith_app. cbn [andb negb].
    apply eqb_eq. rewrite E.
    change (skipn 13 (header_nl ++ body)) with body. exact T.
Qed.

(** X1. The diagram source is empty or in canonical form, whatever happened:
    the renderer is only ever given a text that is the header line followed
    by a body without white space at the end of the body, and that has no
    code fence.  The body may be empty: then the text is the header line
    with its line feed. *)
Theorem diagram_source_empty_or_canonical (events : list Event) :
  mermaidCode (view (run events)) = []
  \/ exists body,
       mermaidCode (view (run events)) = header_nl ++ body
       /\ includes (mermaidCode (view (run events))) fence = false
       /\ trimEnd body = body.
Proof.
  destruct (run_session events) as (_ & [[H _] | [H _]] & _); [now left|].
  right; now apply canonical_body.
Qed.

(** X2. The diagram shown is the reply stored last: as long as no cycle has
    succeeded there is no diagram and the history is the system message
    alone; afterwards the last stored message is the assistant message whose
    content is the diagram source. *)
Theorem diagram_is_last_reply (events : list Event) :
  (mermaidCode (view (run events)) = []
   /\ messages (view (run events)) = [system_message])
  \/ (truthy (mermaidCode (view (run events))) = true
      /\ last (messages (view (run events))) system_message
         = {| role := assistant;
              content := mermaidCode (view (run events)) |}).
Proof.
  destruct (run_session events) as (_ & [H | [H [earlier Hm]]] & _);
    [now left|].
  right; split; [now apply canonical_truthy|].
  rewrite Hm; apply last_last.
Qed.

(** X3. The stored roles follow one pattern: system; then user, assistant
    for the first exchange; then user, assistant, assistant for every later
    one (the note with the diagram is stored with the reply).  So the history
    has one message, or three for each exchange that succeeded. *)
Theorem history_roles_pattern (events : list Event) :
  session_roles (map role (messages (view (run events)))) = true
  /\ (List.length (messages (view (run events))) = 1
      \/ exists k, 1 <= k
                   /\ List.length (messages (view (run events))) = 3 * k).
Proof.
  destruct (run_session events) as (H & _ & _); split; [exact H|].
  rewrite <- (length_map role).
  revert H; generalize (map role (messages (view (run events)))).
  assert (G : forall n roles, List.length roles <= n ->
            later_exchanges roles = true ->
            exists k, List.length roles = 3 * k).
  { induction n as [|n IH]; intros l Hl H.
    - destruct l; [now exists 0|simpl in Hl; lia].
    - destruct l as [|[] [|[] [|[] l]]]; try discriminate; [now exists 0|].
      cbn [later_exchanges] in H.
      destruct (IH l) as [k Hk]; [simpl in Hl; lia|exact H|].
      exists (S k); simpl List.length; lia. }
  intros [|[] [|[] [|[] l]]]; try discriminate; intros H; [now left|right].
  destruct (G _ l (le_n _) H) as [k Hk].
  exists (S k); split; [lia|simpl List.length; lia].
Qed.

(** X4. Once there is a diagram there is one for the rest of the session:
    no event empties the diagram source. *)
Theorem diagram_never_emptied (c : Component) (events : list Event) :
  truthy (mermaidCode (view c)) = true ->
  truthy (mermaidCode (view (run_from c events))) = true.
Proof.
  revert c; induction events as [|e events IH]; intros c H; [exact H|].
  change (run_from c (e :: events)) with (run_from (step c e) events).
  now apply IH, step_diagram_stays.
Qed.

Lemma diagram_never_emptied_witness :
  truthy (mermaidCode (view second_prompt)) = true
  /\ truthy (mermaidCode
            (view (run_from second_prompt
                     [ClickSubmit; ClickZoomOut;
                      FetchSettled (answered []); RenderFailed;
                      Typed (lit "again"); ClickSubmit;
                      FetchSettled (refused (lit "Bad Gateway"))])))
  = true.
Proof.
  split; [reflexivity|].
  apply (diagram_never_emptied second_prompt); reflexivity.
Defined.

(** * A generation cycle with events in between *)

Section CycleFacts.

Implicit Types (s : State) (c : Component) (e : Event).

(** Where a cycle ends: the rest of the handler runs on the state that the
    events in between have left, with the array built at the click. *)
Lemma settle_after_click c (between : list Event) (fetched : Result Response) :
  submit_disabled (view c) = false ->
  forallb (fun e => negb (settles e)) between = true ->
  run_from c (ClickSubmit :: between ++ [FetchSettled fetched])
  = {| view := handleGenerate_settle (updatedMessages (view c)) fetched
                 (view (run_from c (ClickSubmit :: between)));
       suspended := None |}
  /\ messages (view (run_from c (ClickSubmit :: between))) = messages (view c)
  /\ mermaidCode (view (run_from c (ClickSubmit :: between)))
     = mermaidCode (view c).
Proof.
  intros H Hb.
  change (run_from c (ClickSubmit :: between ++ [FetchSettled fetched]))
    with (run_from (step c ClickSubmit) (between ++ [FetchSettled fetched])).
  change (run_from c (ClickSubmit :: between))
    with (run_from (step c ClickSubmit) between).
  rewrite run_from_snoc.
  assert (Hc : step c ClickSubmit =
               {| view := setError None (setLoading true (view c));
                  suspended := Some (updatedMessages (view c)) |})
    by (cbn [step]; now rewrite (click_submit_enabled _ H)).
  destruct (waiting_run between (step c ClickSubmit)
              (updatedMessages (view c)) Hb)
    as (_ & Hs & Hm & Hd); [now rewrite Hc..|].
  assert (Hm0 : messages (view (step c ClickSubmit)) = messages (view c))
    by now rewrite Hc.
  assert (Hd0 : mermaidCode (view (step c ClickSubmit)) = mermaidCode (view c))
    by now rewrite Hc.
  rewrite Hm0 in Hm; rewrite Hd0 in Hd.
  set (c1 := run_from (step c ClickSubmit) between) in *.
  cbn [step]; rewrite Hs; auto.
Qed.

Lemma not_blank_trim (p : str) :
  forallb isWhiteSpace p = false -> truthy (trim p) = true.
Proof.
  intros H; destruct (trim p) eqn:E; [|reflexivity].
  apply trim_empty_blank in E; congruence.
Qed.

End CycleFacts.

(** X5. A cycle that succeeds stores the prompt as it was at the click:
    whatever is typed, zoomed or fails to render before the answer arrives,
    the history becomes the history of the click, the user message with the
    prompt of the click, the note if there was a diagram, and the reply; the
    diagram source becomes the reply, and the prompt is emptied, so the text
    typed in between is lost. *)
Theorem successful_generation_uses_click_state (c : Component)
    (between : list Event) (fetched : Result Response) (code : str) :
  submit_disabled (view c) = false ->
  forallb (fun e => negb (settles e)) between = true ->
  try_block fetched = inr code ->
  let c' := run_from c (ClickSubmit :: between ++ [FetchSettled fetched]) in
  messages (view c')
  = messages (view c) ++ {| role := user; content := prompt (view c) |}
      :: (if truthy (mermaidCode (view c))
          then [{| role := assistant;
                   content := context_note (mermaidCode (view c)) |}]
          else [])
      ++ [{| role := assistant; content := code |}]
  /\ mermaidCode (view c') = code
  /\ prompt (view c') = []
  /\ loading (view c') = false
  /\ suspended c' = None.
Proof.
  intros H Hb Hf c'; subst c'.
  destruct (settle_after_click c between fetched H Hb) as (-> & _ & _).
  unfold handleGenerate_settle; rewrite Hf.
  cbn [view suspended setLoading setPrompt setMermaidCode setMessages
       messages mermaidCode prompt loading].
  rewrite updatedMessages_extends, <- app_assoc; cbn [app]; auto.
Qed.

Lemma successful_generation_uses_click_state_witness :
  submit_disabled (view second_prompt) = false
  /\ map content
       (skipn 3
          (messages
             (view (run_from second_prompt
                      [ClickSubmit; Typed (lit "add an exit and an entry");
                       ClickZoomIn; FetchSettled (answered (lit "A-->B"))]))))
     = [lit "add an exit";
        lines ["Current flowchart code:"; "flowchart TD"; "A-->A";
               "Please modify this based on the user's request."];
        lines ["flowchart TD"; "A-->B"]]
  /\ prompt
       (view (run_from second_prompt
                [ClickSubmit; Typed (lit "add an exit and an entry");
                 ClickZoomIn; FetchSettled (answered (lit "A-->B"))]))
     = [].
Proof.
  split; [reflexivity|].
  pose proof (successful_generation_uses_click_state second_prompt
                [Typed (lit "add an exit and an entry"); ClickZoomIn]
                (answered (lit "A-->B")) (lines ["flowchart TD"; "A-->B"])
                eq_refl eq_refl eq_refl) as (Hm & _ & Hp & _).
  cbn [app] in Hm, Hp.
  split; [rewrite Hm; reflexivity | exact Hp].
Defined.

(** X6. A cycle that fails keeps the text that is in the prompt when the
    answer arrives, for a retry, and shows the message of the failure in the
    error paragraph, unless that message is empty: then nothing is shown. *)
Theorem failed_generation_keeps_prompt (c : Component)
    (between : list Event) (fetched : Result Response) (err : Thrown) :
  submit_disabled (view c) = false ->
  forallb (fun e => negb (settles e)) between = true ->
  try_block fetched = inl err ->
  let c' := run_from c (ClickSubmit :: between ++ [FetchSettled fetched]) in
  prompt (view c') = prompt (view (run_from c (ClickSubmit :: between)))
  /\ error_paragraph (view c')
     = (if truthy (error_text err) then Some (error_text err) else None).
Proof.
  intros H Hb Hf c'; subst c'.
  destruct (settle_after_click c between fetched H Hb) as (-> & _ & _).
  unfold handleGenerate_settle; rewrite Hf.
  cbn [view setLoading setError prompt]. split; reflexivity.
Qed.

Lemma failed_generation_keeps_prompt_witness :
  submit_disabled (view first_prompt) = false
  /\ prompt (view (run_from first_prompt
                     [ClickSubmit; Typed (lit "draw a loop with an exit");
                      FetchSettled (refused [])]))
     = lit "draw a loop with an exit"
  /\ error_paragraph
       (view (run_from first_prompt
                [ClickSubmit; Typed (lit "draw a loop with an exit");
                 FetchSettled (refused [])]))
     = Some (lit "API error: ").
Proof.
  split; [reflexivity|].
  pose proof (failed_generation_keeps_prompt first_prompt
                [Typed (lit "draw a loop with an exit")]
                (refused []) (ErrorObject (lit "API error: "))
                eq_refl eq_refl eq_refl) as (Hp & He).
  cbn [app] in Hp, He.
  split; [rewrite Hp; reflexivity | exact He].
Defined.

(** X7. A click on the submit button sends a request exactly when no request
    is in flight and the prompt has a character that is not white space; the
    request then carries the array built from the current state. *)
Theorem request_sent_iff (s : State) :
  (sent_request s = None
   <-> loading s = true \/ forallb isWhiteSpace (prompt s) = true)
  /\ (sent_request s = None
      \/ sent_request s = Some (request_body (updatedMessages s))).
Proof.
  unfold sent_request, click_submit, handleGenerate_start, submit_disabled.
  destruct (loading s); cbn [orb]; [split; [split|]; auto|].
  destruct (forallb isWhiteSpace (prompt s)) eqn:B.
  - rewrite (trim_blank _ B); cbn; split; [split|]; auto.
  - rewrite (not_blank_trim _ B); cbn; split; [split|]; auto;
      [discriminate | intros [?|?]; discriminate].
Qed.

(** * More on the sanitizer *)

Section SanitizerMore.

Implicit Types (s t a b content : str) (c : char).

Lemma trimStart_app_blank a t :
  forallb isWhiteSpace a = true -> trimStart (a ++ t) = trimStart t.
Proof.
  induction a as [|x a IH]; [reflexivity|]; cbn [forallb app trimStart].
  intros H; apply andb_true_iff in H as [Hx Ha]. now rewrite Hx, IH.
Qed.

Lemma trimEnd_blank b : forallb isWhiteSpace b = true -> trimEnd b = [].
Proof.
  induction b as [|x b IH]; [reflexivity|]; cbn [forallb trimEnd].
  intros H; apply andb_true_iff in H as [Hx Hb]. now rewrite IH, Hx.
Qed.

Lemma trimEnd_app_blank t b :
  forallb isWhiteSpace b = true -> trimEnd (t ++ b) = trimEnd t.
Proof.
  intros H; induction t as [|x t IH]; [now apply trimEnd_blank|].
  cbn [app trimEnd]; now rewrite IH.
Qed.

Lemma trimStart_app_keep t b :
  trimStart t <> [] -> trimStart (t ++ b) = trimStart t ++ b.
Proof.
  induction t as [|x t IH]; [intros H; exfalso; now apply H|].
  cbn [app trimStart].
  destruct (isWhiteSpace x); [exact IH|reflexivity].
Qed.

Lemma trim_app_blank a t b :
  forallb isWhiteSpace a = true -> forallb isWhiteSpace b = true ->
  trim (a ++ t ++ b) = trim t.
Proof.
  intros Ha Hb; unfold trim. rewrite (trimStart_app_blank _ _ Ha).
  destruct (trimStart t) as [|x u] eqn:E.
  - assert (Ht : forallb isWhiteSpace t = true)
      by (apply trim_empty_blank; unfold trim; now rewrite E).
    rewrite trimStart_blank; [reflexivity|].
    now rewrite forallb_app, Ht, Hb.
  - rewrite trimStart_app_keep, E by (rewrite E; discriminate).
    now apply trimEnd_app_blank.
Qed.

Lemma sanitize_of_trim content : sanitize (trim content) = sanitize content.
Proof. unfold sanitize, clean; now rewrite trim_idem. Qed.

(** A canonical text is the header line alone or is trimmed. *)
Lemma canonical_cases s :
  canonical s = true ->
  startsWith s header_nl = true /\ includes s fence = false
  /\ (s = header_nl \/ (trim s = s /\ trimEnd s = s)).
Proof.
  unfold canonical; intros H.
  apply andb_true_iff in H as [H H3]; apply andb_true_iff in H as [H1 H2].
  apply negb_true_iff in H2; apply eqb_eq in H3.
  split; [exact H1|split; [exact H2|]].
  pose proof (startsWith_split _ _ H1) as E.
  change (List.length header_nl) with 13 in E.
  destruct (skipn 13 s) as [|x body] eqn:B.
  - left; now rewrite E, app_nil_r.
  - right.
    assert (T : trimEnd s = s).
    { rewrite E at 1. rewrite trimEnd_app_nonempty; rewrite H3;
        [symmetry; exact E | discriminate]. }
    split; [|exact T].
    unfold trim. replace (trimStart s) with s by (rewrite E; reflexivity).
    exact T.
Qed.

(** The last steps give a canonical text back, also with a line feed
    behind it. *)
Lemma canonical_finish s (b : str) :
  canonical s = true -> forallb isWhiteSpace b = true ->
  ensure_header (trim (s ++ b)) = s.
Proof.
  intros H Hb; destruct (canonical_cases s H) as (H1 & _ & [-> | [T _]]).
  - rewrite <- (app_nil_l (header_nl ++ b)).
    rewrite (trim_app_blank [] header_nl b eq_refl Hb). reflexivity.
  - rewrite <- (app_nil_l (s ++ b)).
    rewrite (trim_app_blank [] s b eq_refl Hb), T.
    unfold ensure_header; now rewrite H1.
Qed.

Lemma leading_backticks_sep a c t :
  c <> BACKTICK -> leading_backticks (a ++ c :: t) = leading_backticks a.
Proof.
  intros Hc; induction a as [|x a IH]; cbn [app leading_backticks].
  - destruct (N.eqb_spec BACKTICK c); [congruence|reflexivity].
  - now rewrite IH.
Qed.

(** A global replacement passes over a text without fence that a character
    other than a backtick follows. *)
Lemma replaceAll_pass (m : str -> option nat) by_ a c t :
  (forall u, startsWith u fence = false -> m u = None) ->
  includes a fence = false -> c <> BACKTICK ->
  replaceAll m by_ (a ++ c :: t) = a ++ replaceAll m by_ (c :: t).
Proof.
  intros Hm Ha Hc; unfold replaceAll.
  induction a as [|x a IH]; [reflexivity|].
  rewrite includes_cons in Ha. apply orb_false_iff in Ha as [H1 H2].
  cbn [app replaceAllFrom].
  rewrite Hm; [now rewrite (IH H2)|].
  destruct (startsWith (x :: a ++ c :: t) fence) eqn:E; [|reflexivity].
  apply fence_leading in E.
  change (x :: a ++ c :: t) with ((x :: a) ++ c :: t) in E.
  rewrite (leading_backticks_sep _ _ t Hc) in E.
  apply fence_leading in E; congruence.
Qed.

Lemma length_trimStart s : List.length (trimStart s) <= List.length s.
Proof.
  induction s as [|x s IH]; [apply le_n|]; cbn [trimStart].
  destruct (isWhiteSpace x); simpl; lia.
Qed.

Lemma length_trimEnd s : List.length (trimEnd s) <= List.length s.
Proof.
  induction s as [|x s IH]; [apply le_n|]; cbn [trimEnd].
  destruct (trimEnd s); [destruct (isWhiteSpace x)|]; simpl in *; lia.
Qed.

Lemma length_trim s : List.length (trim s) <= List.length s.
Proof.
  unfold trim. pose proof (length_trimEnd (trimStart s)).
  pose proof (length_trimStart s). lia.
Qed.

Lemma length_replaceAllFrom (m : str -> option nat) s : forall k,
  List.length (replaceAllFrom m [] k s) <= List.length s.
Proof.
  induction s as [|x s IH]; intros k; [apply le_n|].
  destruct k as [|k]; cbn [replaceAllFrom].
  - destruct (m (x :: s)) as [[|n]|]; cbn [app List.length].
    + specialize (IH 0); lia.
    + specialize (IH n); lia.
    + specialize (IH 0); lia.
  - specialize (IH k); simpl; lia.
Qed.

Lemma startsWithIgnoreCase_length s p :
  startsWithIgnoreCase s p = true -> List.length p <= List.length s.
Proof.
  revert s; induction p as [|x p IH]; intros s H; [simpl; lia|].
  destruct s as [|y s]; [discriminate|]. cbn [startsWithIgnoreCase] in H.
  apply andb_true_iff in H as [_ H]. specialize (IH s H). simpl; lia.
Qed.

Lemma length_replace_graph s :
  List.length (replace_graph s) <= List.length s + 4.
Proof.
  unfold replace_graph.
  destruct (startsWithIgnoreCase s (lit "graph ")) eqn:E; [|lia].
  apply startsWithIgnoreCase_length in E.
  change (List.length (lit "graph ")) with 6 in E.
  rewrite length_app, length_skipn.
  change (List.length (lit "flowchart ")) with 10. lia.
Qed.

Lemma length_strip_header s : List.length (strip_header s) <= List.length s.
Proof.
  destruct (strip_header_suffix s) as [a Ha].
  rewrite Ha at 2. rewrite length_app; lia.
Qed.

End SanitizerMore.

(** X8. White space around the completion text does not count: the text
    with white space in front and behind is sanitized to the same output. *)
Theorem sanitize_ignores_outer_white_space (a content b : str) :
  forallb isWhiteSpace a = true -> forallb isWhiteSpace b = true ->
  sanitize (a ++ content ++ b) = sanitize content.
Proof.
  intros Ha Hb.
  rewrite <- (sanitize_of_trim (a ++ content ++ b)).
  rewrite (trim_app_blank a content b Ha Hb).
  apply sanitize_of_trim.
Qed.

Lemma sanitize_ignores_outer_white_space_witness :
  forallb isWhiteSpace [LF; 32]%N = true
  /\ forallb isWhiteSpace [13; LF; 9]%N = true
  /\ sanitize ([LF; 32]%N ++ lit "A --> B" ++ [13; LF; 9]%N)
     = sanitize (lit "A --> B").
Proof.
  split; [reflexivity|split; [reflexivity|]].
  apply (sanitize_ignores_outer_white_space [LF; 32]%N (lit "A --> B")
           [13; LF; 9]%N); reflexivity.
Defined.

(** X9. The texts that the sanitizer leaves as they are are exactly those
    made of the header line and a body without white space at the end of
    the body, with no fence anywhere; the header line alone, with its line
    feed, is one of them. *)
Theorem sanitize_fixed_iff_canonical (s : str) :
  sanitize s = s
  <-> exists body,
        s = header_nl ++ body
        /\ includes s fence = false
        /\ trimEnd body = body.
Proof.
  rewrite <- canonical_body.
  split; [|apply canonical_fixed].
  intros H; rewrite <- H; apply sanitize_canonical.
Qed.

(** X10. A fenced canonical text comes back as it was: between an opening
    fence, tagged [mermaid] or not, with its line feed and a line feed with
    the closing fence, the text is returned unchanged. *)
Theorem sanitize_unwraps_fenced (s : str) :
  canonical s = true ->
  sanitize (fence_mermaid ++ LF :: s ++ LF :: fence) = s
  /\ sanitize (fence ++ LF :: s ++ LF :: fence) = s.
Proof.
  intros H; destruct (canonical_cases s H) as (H1 & H2 & _).
  assert (LFb : LF <> BACKTICK) by discriminate.
  assert (F : replace_graph (s ++ [LF]) = s ++ [LF])
    by (rewrite (startsWith_split _ _ H1); reflexivity).
  split; rewrite sanitize_unfold; unfold clean.
  - replace (trim (fence_mermaid ++ LF :: s ++ LF :: fence))
      with (fence_mermaid ++ LF :: s ++ LF :: fence).
    2:{ symmetry. change (fence_mermaid ++ LF :: s ++ LF :: fence)
          with (((fence_mermaid ++ [LF]) ++ s) ++ LF :: fence).
        unfold trim. change (trimStart ?x) with x.
        rewrite trimEnd_app_nonempty; [reflexivity|discriminate]. }
    change (replaceAll match_fence_mermaid []
              (fence_mermaid ++ LF :: s ++ LF :: fence))
      with (replaceAll match_fence_mermaid [] (s ++ LF :: fence)).
    rewrite (replaceAll_pass _ [] s LF fence no_fence_no_match_mermaid H2 LFb).
    change (replaceAll match_fence_mermaid [] (LF :: fence))
      with (LF :: fence).
    rewrite (replaceAll_pass _ [] s LF fence no_fence_no_match H2 LFb).
    change (replaceAll match_fence [] (LF :: fence)) with [LF].
    rewrite F. now apply canonical_finish.
  - replace (trim (fence ++ LF :: s ++ LF :: fence))
      with (fence ++ LF :: s ++ LF :: fence).
    2:{ symmetry. change (fence ++ LF :: s ++ LF :: fence)
          with (((fence ++ [LF]) ++ s) ++ LF :: fence).
        unfold trim. change (trimStart ?x) with x.
        rewrite trimEnd_app_nonempty; [reflexivity|discriminate]. }
    change (replaceAll match_fence_mermaid [] (fence ++ LF :: s ++ LF :: fence))
      with (fence ++ LF :: replaceAll match_fence_mermaid [] (s ++ LF :: fence)).
    rewrite (replaceAll_pass _ [] s LF fence no_fence_no_match_mermaid H2 LFb).
    change (replaceAll match_fence_mermaid [] (LF :: fence))
      with (LF :: fence).
    change (replaceAll match_fence [] (fence ++ LF :: s ++ LF :: fence))
      with (LF :: replaceAll match_fence [] (s ++ LF :: fence)).
    rewrite (replaceAll_pass _ [] s LF fence no_fence_no_match H2 LFb).
    change (replaceAll match_fence [] (LF :: fence)) with [LF].
    change (replace_graph (LF :: s ++ [LF])) with (LF :: s ++ [LF]).
    change (trim (LF :: s ++ [LF])) with (trim (s ++ [LF])).
    now apply canonical_finish.
Qed.

Lemma sanitize_unwraps_fenced_witness :
  canonical (lines ["flowchart TD"; "A[Start] --> B[End]"]) = true
  /\ sanitize (lines ["```mermaid"; "flowchart TD"; "A[Start] --> B[End]";
                      "```"])
     = lines ["flowchart TD"; "A[Start] --> B[End]"].
Proof.
  split; [reflexivity|].
  exact (proj1 (sanitize_unwraps_fenced
                  (lines ["flowchart TD"; "A[Start] --> B[End]"]) eq_refl)).
Defined.

Section SanitizerKeyword.

Implicit Types (s t g rest pre : str) (c p : char).

Lemma startsWith_header_nl_header s :
  startsWith s header = false -> startsWith s header_nl = false.
Proof.
  intros H; destruct (startsWith s header_nl) eqn:E; [|reflexivity].
  rewrite (startsWith_trans _ _ header E) in H; [discriminate|reflexivity].
Qed.

(** Under the flag [i] a lower-case letter of the pattern matches itself
    and its capital, nothing else. *)
Lemma eqIgnoreCase_letter p c :
  isLower p = true -> eqIgnoreCase p c = true -> c = p \/ c = (p - 32)%N.
Proof.
  unfold eqIgnoreCase, canonicalizeAscii, isLower; intros Hp H.
  rewrite Hp in H.
  apply andb_true_iff in Hp as [P1 P2].
  apply N.leb_le in P1; apply N.leb_le in P2.
  apply andb_true_iff in H as [_ H]; apply N.eqb_eq in H.
  destruct ((97 <=? c) && (c <=? 122))%N eqn:C.
  - apply andb_true_iff in C as [C1 C2].
    apply N.leb_le in C1; apply N.leb_le in C2. left; lia.
  - now right.
Qed.

Lemma legacy_core pre rest :
  Forall (fun c => c <> BACKTICK) pre ->
  (forall t, trimStart (pre ++ t) = pre ++ t) ->
  (forall t, replace_graph (pre ++ t) = header_nl ++ t) ->
  rest <> [] -> canonical (header_nl ++ rest) = true ->
  sanitize (pre ++ rest) = header_nl ++ rest.
Proof.
  intros Hb Hs Hg Hr H.
  destruct (canonical_cases _ H) as (_ & H2 & [E | [_ T]]).
  { exfalso; apply Hr. rewrite <- (app_nil_r header_nl) in E at 2.
    now apply app_inv_head in E. }
  assert (Tr : trimEnd rest = rest)
    by (apply (trimEnd_fixed_suffix header_nl); assumption).
  assert (F : includes (pre ++ rest) fence = false).
  { apply includes_app_without; [exact Hb|].
    now apply includes_suffix in H2. }
  assert (Tp : trim (pre ++ rest) = pre ++ rest).
  { unfold trim; rewrite Hs, trimEnd_app_nonempty; rewrite Tr;
      [reflexivity|exact Hr]. }
  rewrite sanitize_unfold; unfold clean. rewrite Tp.
  rewrite (replaceAll_fixed _ [] _ no_fence_no_match_mermaid F).
  rewrite (replaceAll_fixed _ [] _ no_fence_no_match F).
  rewrite Hg. rewrite <- (app_nil_r (header_nl ++ rest)) at 1.
  now apply canonical_finish.
Qed.

End SanitizerKeyword.

(** X11. A trimmed text without fence that starts neither with the legacy
    keyword nor with the header gets the header line in front and is
    otherwise unchanged. *)
Theorem sanitize_prepends_header (s : str) :
  trim s = s -> includes s fence = false ->
  startsWithIgnoreCase s (lit "graph ") = false ->
  startsWith s header = false ->
  sanitize s = header_nl ++ s.
Proof.
  intros T F G H.
  rewrite sanitize_unfold; unfold clean. rewrite T.
  rewrite (replaceAll_fixed _ [] _ no_fence_no_match_mermaid F).
  rewrite (replaceAll_fixed _ [] _ no_fence_no_match F).
  unfold replace_graph; rewrite G, T.
  unfold ensure_header, strip_header.
  now rewrite (startsWith_header_nl_header _ H), H.
Qed.

Lemma sanitize_prepends_header_witness :
  trim (lines ["A[Start] --> B{Ok?}"; "B -->|yes| C[End]"])
  = lines ["A[Start] --> B{Ok?}"; "B -->|yes| C[End]"]
  /\ sanitize (lines ["A[Start] --> B{Ok?}"; "B -->|yes| C[End]"])
     = lines ["flowchart TD"; "A[Start] --> B{Ok?}"; "B -->|yes| C[End]"].
Proof.
  split; [reflexivity|].
  apply (sanitize_prepends_header
           (lines ["A[Start] --> B{Ok?}"; "B -->|yes| C[End]"]));
    reflexivity.
Defined.

(** X12. The legacy keyword [graph], in any mix of cases, in front of
    [TD] and a line feed is replaced by the canonical keyword: the text is
    sanitized to the header line and what follows, when that is canonical. *)
Theorem sanitize_legacy_keyword_any_case (g rest : str) :
  List.length g = 5 ->
  startsWithIgnoreCase g (lit "graph") = true ->
  canonical (header_nl ++ rest) = true ->
  sanitize (g ++ lit " TD" ++ LF :: rest) = header_nl ++ rest.
Proof.
  intros L G H.
  destruct g as [|g1 [|g2 [|g3 [|g4 [|g5 [|? ?]]]]]]; try discriminate L.
  cbn [startsWithIgnoreCase lit map list_ascii_of_string] in G.
  repeat match type of G with
         | (_ && _) = true => apply andb_true_iff in G as [?E G]
         end.
  repeat match goal with
         | K : eqIgnoreCase ?p ?c = true |- _ =>
             apply (eqIgnoreCase_letter p c eq_refl) in K
         end.
  destruct rest as [|r rest].
  - destruct E as [-> | ->], E0 as [-> | ->], E1 as [-> | ->],
      E2 as [-> | ->], E3 as [-> | ->]; vm_compute; reflexivity.
  - destruct E as [-> | ->], E0 as [-> | ->], E1 as [-> | ->],
      E2 as [-> | ->], E3 as [-> | ->];
    match goal with
    | |- sanitize (?g ++ _ ++ _ :: ?t) = _ =>
        change (sanitize ((g ++ lit " TD" ++ [LF]) ++ t) = header_nl ++ t)
    end;
    (apply legacy_core;
     [repeat constructor; discriminate
     |reflexivity|reflexivity|discriminate|exact H]).
Qed.

Lemma sanitize_legacy_keyword_any_case_witness :
  canonical (header_nl ++ lit "A --> B") = true
  /\ sanitize (lit "GrApH" ++ lit " TD" ++ LF :: lit "A --> B")
     = lines ["flowchart TD"; "A --> B"].
Proof.
  split; [reflexivity|].
  apply (sanitize_legacy_keyword_any_case (lit "GrApH") (lit "A --> B"));
    reflexivity.
Defined.

(** X13. The output has the thirteen code units of the header line at
    least, and at most seventeen more than the completion text: four for the
    longer keyword and thirteen for the header line. *)
Theorem sanitize_length_bounds (content : str) :
  13 <= List.length (sanitize content)
  /\ List.length (sanitize content) <= List.length content + 17.
Proof.
  split.
  - pose proof (ensure_header_starts (clean content)) as H.
    rewrite <- sanitize_unfold in H. apply startsWith_split in H.
    rewrite H, length_app. change (List.length header_nl) with 13. lia.
  - rewrite sanitize_unfold.
    assert (C : List.length (clean content) <= List.length content + 4).
    { unfold clean, replaceAll.
      etransitivity; [apply length_trim|].
      etransitivity; [apply length_replace_graph|].
      pose proof (length_replaceAllFrom match_fence
                    (replaceAllFrom match_fence_mermaid [] 0 (trim content)) 0).
      pose proof (length_replaceAllFrom match_fence_mermaid (trim content) 0).
      pose proof (length_trim content). lia. }
    unfold ensure_header.
    destruct (startsWith (clean content) header_nl); cbn [negb]; [lia|].
    rewrite length_app. change (List.length header_nl) with 13.
    pose proof (length_strip_header (clean content)). lia.
Qed.

(** * The zoom buttons and what is shown *)

Section ViewFacts.

Implicit Types (s : State) (c : Component) (x y delta : number).

Lemma add_finite_number sx mx ex delta :
  isNaN delta = false -> isNaN (add (S754_finite sx mx ex) delta) = false.
Proof.
  destruct delta as [sd|sd| |sd md ed]; intros H;
    [reflexivity|reflexivity|discriminate|apply add_finite_not_nan].
Qed.

Lemma same_number_eq x y : same_number x y = true -> x = y.
Proof.
  destruct x as [a|a| |a m e], y as [b|b| |b n f]; cbn [same_number];
    try discriminate; try reflexivity.
  - intros H; apply Bool.eqb_prop in H; congruence.
  - intros H; apply Bool.eqb_prop in H; congruence.
  - intros H. apply andb_true_iff in H as [H He].
    apply andb_true_iff in H as [Hs Hm].
    apply Bool.eqb_prop in Hs; apply Pos.eqb_eq in Hm; apply Z.eqb_eq in He.
    congruence.
Qed.

Section Reach.

(** A list of scales that holds 1 and is closed under the two buttons holds
    every scale of a session. *)
Variable reach : list number.
Hypothesis reach_one : existsb (same_number one) reach = true.
Hypothesis reach_closed : closed_under_zoom reach = true.

Lemma step_scale_reached c (e : Event) :
  In (scale (view c)) reach -> In (scale (view (step c e))) reach.
Proof.
  intros H.
  assert (Z : forall delta, delta = tenth \/ delta = neg tenth ->
            In (scale (handleZoom delta (view c))) reach).
  { intros delta D.
    pose proof reach_closed as C; unfold closed_under_zoom in C.
    rewrite forallb_forall in C.
    specialize (C _ H); apply andb_true_iff in C as [C1 C2].
    apply existsb_exists in C1 as (y1 & I1 & E1).
    apply existsb_exists in C2 as (y2 & I2 & E2).
    apply same_number_eq in E1, E2.
    destruct D as [-> | ->].
    - change (scale (handleZoom tenth (view c)))
        with (zoomed tenth (scale (view c))). now rewrite E1.
    - change (scale (handleZoom (neg tenth) (view c)))
        with (zoomed (neg tenth) (scale (view c))). now rewrite E2. }
  destruct e; cbn [step].
  - exact H.
  - unfold click_submit, handleGenerate_start.
    destruct (submit_disabled (view c)); [exact H|].
    destruct (negb (truthy (trim (prompt (view c))))); exact H.
  - destruct (suspended c); [|exact H].
    unfold handleGenerate_settle; destruct (try_block fetched); exact H.
  - apply Z; now right.
  - apply Z; now left.
  - destruct (truthy (mermaidCode (view c))); exact H.
Qed.

Lemma run_scale_reached (events : list Event) :
  In (scale (view (run events))) reach.
Proof.
  induction events as [|e events IH] using rev_ind.
  - pose proof reach_one as O.
    apply existsb_exists in O as (y & I & E).
    apply same_number_eq in E. change (scale (view (run []))) with one.
    now rewrite E.
  - unfold run; rewrite run_from_snoc. now apply step_scale_reached.
Qed.

Lemma run_readout_tens (events : list Event) :
  forallb tens_readout reach = true ->
  exists k : nat,
    1 <= k <= 20
    /\ zoom_readout (view (run events)) = of_Z (10 * Z.of_nat k).
Proof.
  intros R; rewrite forallb_forall in R.
  specialize (R _ (run_scale_reached events)).
  apply existsb_exists in R as (k & I & E).
  apply in_seq in I; apply same_number_eq in E.
  exists k; split; [lia|exact E].
Qed.

End Reach.

Lemma scales_start : existsb (same_number one) (scales_within 30) = true.
Proof. vm_compute; reflexivity. Qed.

Lemma scales_closed : closed_under_zoom (scales_within 30) = true.
Proof. vm_compute; reflexivity. Qed.

Lemma scales_readout : forallb tens_readout (scales_within 30) = true.
Proof. vm_compute; reflexivity. Qed.

Lemma scales_count : List.length (scales_within 30) = 59.
Proof. vm_compute; reflexivity. Qed.

End ViewFacts.

(** X14. [handleZoom] keeps the scale in the interval for every step that
    is a number, the infinities among them, not only for the two steps of
    the buttons; and it changes nothing but the scale. *)
Theorem handleZoom_keeps_range (s : State) (delta : number) :
  in_range (scale s) = true -> isNaN delta = false ->
  in_range (scale (handleZoom delta s)) = true
  /\ setScale (fun _ => scale s) (handleZoom delta s) = s.
Proof.
  intros H D; split; [|now destruct s].
  cbn [handleZoom setScale scale]. apply clamp_in_range.
  destruct (in_range_finite _ H) as (sx & mx & ex & ->).
  now apply add_finite_number.
Qed.

Lemma handleZoom_keeps_range_witness :
  in_range (scale initial) = true
  /\ scale (handleZoom (S754_infinity false) initial) = two
  /\ scale (handleZoom (S754_infinity true) initial) = tenth
  /\ in_range (scale (handleZoom one initial)) = true.
Proof.
  split; [reflexivity|split; [reflexivity|split; [reflexivity|]]].
  exact (proj1 (handleZoom_keeps_range initial one eq_refl eq_refl)).
Defined.

(** X15. The percentage next to the zoom buttons is always one of 10, 20,
    ..., 200: the scale drifts off the tenths as the sums are rounded (there
    are 59 scales within reach), but [Math.round(scale * 100)] never shows
    the drift. *)
Theorem zoom_readout_shows_tens (events : list Event) :
  exists k : nat,
    1 <= k <= 20
    /\ zoom_readout (view (run events)) = of_Z (10 * Z.of_nat k).
Proof.
  exact (run_readout_tens (scales_within 30) scales_start scales_closed
           events scales_readout).
Qed.

(** X16. The text of the submit button and the placeholder tell where the
    session is: the button reads [Generating...] exactly while a handler
    waits for its answer, and [Generate Diagram] exactly when none waits and
    no exchange has succeeded yet; the placeholder asks for a description of
    a new flowchart exactly as long as the history is the system message
    alone. *)
Theorem button_label_tells_status (events : list Event) :
  (button_label (view (run events)) = lit "Generating..."
   <-> in_flight (run events) = true)
  /\ (button_label (view (run events)) = lit "Generate Diagram"
      <-> in_flight (run events) = false
          /\ messages (view (run events)) = [system_message])
  /\ (placeholder (view (run events)) = lit "Describe your flowchart..."
      <-> messages (view (run events)) = [system_message]).
Proof.
  pose proof (run_single_request events) as L.
  destruct (run_session events) as (_ & D & _).
  assert (N : forall earlier (m : Message),
            role m = assistant -> earlier ++ [m] <> [system_message]).
  { intros [|m1 [|m2 earlier]] m Hm E; try discriminate.
    injection E as ->; discriminate. }
  unfold button_label, placeholder; rewrite L.
  destruct D as [[Hc Hm] | [Hc [earlier Hm]]].
  - rewrite Hc; cbn [truthy].
    destruct (in_flight (run events)); repeat split; try discriminate; auto.
    intros [? _]; discriminate.
  - rewrite (canonical_truthy _ Hc).
    destruct (in_flight (run events)); repeat split; try discriminate; auto;
      try (intros [? _]; discriminate);
      try (intros [_ E]; rewrite E in Hm; symmetry in Hm;
           now apply N in Hm);
      try (intros E; rewrite E in Hm; symmetry in Hm; now apply N in Hm).
Qed.

(** X17. Once a diagram exists, every request repeats it: the messages of
    the request end with the stored reply that carries the diagram, the user
    message with the prompt, and the note that quotes the same diagram. *)
Theorem request_repeats_diagram (events : list Event) :
  submit_disabled (view (run events)) = false ->
  truthy (mermaidCode (view (run events))) = true ->
  exists earlier,
    option_map req_messages (sent_request (view (run events)))
    = Some (earlier
            ++ [{| role := assistant;
                   content := mermaidCode (view (run events)) |};
                {| role := user; content := prompt (view (run events)) |};
                {| role := assistant;
                   content := context_note (mermaidCode (view (run events))) |}]).
Proof.
  intros H T.
  destruct (run_session events) as (_ & [[Hc _] | [_ [earlier Hm]]] & _).
  - rewrite Hc in T; discriminate.
  - exists earlier. unfold sent_request; rewrite (click_submit_enabled _ H).
    cbn [option_map req_messages request_body].
    rewrite updatedMessages_extends, T, Hm, <- app_assoc. reflexivity.
Qed.

Lemma request_repeats_diagram_witness :
  submit_disabled (view second_prompt) = false
  /\ truthy (mermaidCode (view second_prompt)) = true
  /\ exists earlier,
       option_map req_messages (sent_request (view second_prompt))
       = Some (earlier
               ++ [{| role := assistant;
                      content := lines ["flowchart TD"; "A-->A"] |};
                   {| role := user; content := lit "add an exit" |};
                   {| role := assistant;
                      content := context_note (lines ["flowchart TD"; "A-->A"]) |}]).
Proof.
  split; [reflexivity|split; [reflexivity|]].
  exact (request_repeats_diagram
           [Typed (lit "draw a loop"); ClickSubmit;
            FetchSettled (answered (lit "A-->A")); Typed (lit "add an exit")]
           eq_refl eq_refl).
Defined.

(** * The fences and their tags *)

Section FenceTags.

Implicit Types (s t u w pre : str) (c x : char).









End FenceTags.



